(* Verification development for the filtering, classification and
   deduplication pipeline of NewsCollector:
     src/news_collector.py  (CategoryClassifier.classify_article,
                             NewsCollector.validate_article, NewsCollector.deduplicate)
     src/smart_filter.py    (SmartFilter scoring and inclusion decision,
                             contextual_keyword_check, filter_articles_for_ai)
     src/config.py          (BLACKLIST_DOMAINS, EXCLUDED_KEYWORDS)
     src/news_collector.py  (NewsCollector.check_time_validity, clean_naver_link)
     src/classifier.py      (DataClassifier.classify_item, process_and_deduplicate)
     src/news_analyzer.py   (sort_by_date and the per-category cap of
                             NewsAnalyzer.analyze_and_summarize)

   Modelling conventions.
   - Python strings are modelled as Rocq strings holding their UTF-8 bytes.
     Substring tests (`in`), non-overlapping `count` and `replace` on valid
     UTF-8 agree with the code-point versions, since a match of a UTF-8
     encoded needle can only start at a character boundary.  `len` counts
     code points (bytes that are not continuation bytes).
   - `str.lower()` is modelled on ASCII letters; non-ASCII characters are
     kept as they are (Korean text has no case).
   - `str.split()` splits on the ASCII whitespace characters Python treats
     as whitespace (\t \n \x0b \x0c \r \x1c-\x1f and space).
   - Python floats are modelled by exact rationals (Q).
   - A dict record is a Rocq record of optional fields: `None` is a key
     missing from the dict.  `article.get(k, '')` is `get`, `article[k]` is
     `req`, which raises KeyError on a missing key.
   - Exceptions are modelled by the small error monad `result`. *)

From Stdlib Require Import String Ascii List Bool Arith ZArith QArith Qround Lia Lqa
  Permutation Sorted.
Import ListNotations.
Open Scope string_scope.

(* ------------------------------------------------------------------ *)
(** * Python string primitives *)

Module PyStr.

Definition lower_char (c : ascii) : ascii :=
  let n := nat_of_ascii c in
  if (65 <=? n)%nat && (n <=? 90)%nat then ascii_of_nat (n + 32) else c.

(** [s.lower()] *)
Fixpoint lower (s : string) : string :=
  match s with
  | EmptyString => EmptyString
  | String c s' => String (lower_char c) (lower s')
  end.

Fixpoint startswith (p s : string) : bool :=
  match p, s with
  | EmptyString, _ => true
  | String a p', String b s' => Ascii.eqb a b && startswith p' s'
  | String _ _, EmptyString => false
  end.

(** [sub in s] *)
Fixpoint py_in (sub s : string) : bool :=
  startswith sub s ||
  match s with
  | EmptyString => false
  | String _ s' => py_in sub s'
  end.

Fixpoint drop (n : nat) (s : string) : string :=
  match n, s with
  | O, _ => s
  | S n', String _ s' => drop n' s'
  | S _, EmptyString => EmptyString
  end.

Fixpoint count_go (fuel : nat) (s sub : string) : nat :=
  match fuel with
  | O => O
  | S f =>
      match s with
      | EmptyString => O
      | String _ s' =>
          if startswith sub s then S (count_go f (drop (String.length sub) s) sub)
          else count_go f s' sub
      end
  end.

(** [s.count(sub)] for a non-empty [sub]: non-overlapping, left to right. *)
Definition py_count (s sub : string) : nat := count_go (String.length s) s sub.

Fixpoint replace_go (fuel : nat) (s old new : string) : string :=
  match fuel with
  | O => s
  | S f =>
      match s with
      | EmptyString => EmptyString
      | String c s' =>
          if startswith old s then new ++ replace_go f (drop (String.length old) s) old new
          else String c (replace_go f s' old new)
      end
  end.

(** [s.replace(old, new)] for a non-empty [old]. *)
Definition py_replace (s old new : string) : string :=
  replace_go (String.length s) s old new.

(** [len(s)]: number of code points of the UTF-8 byte string. *)
Fixpoint py_len (s : string) : nat :=
  match s with
  | EmptyString => O
  | String c s' =>
      let n := nat_of_ascii c in
      if (n <? 128)%nat || (192 <=? n)%nat then S (py_len s') else py_len s'
  end.

Definition is_space (c : ascii) : bool :=
  let n := nat_of_ascii c in
  ((9 <=? n)%nat && (n <=? 13)%nat) || ((28 <=? n)%nat && (n <=? 32)%nat).

Fixpoint split_go (s cur : string) : list string :=
  match s with
  | EmptyString => if String.eqb cur EmptyString then [] else [cur]
  | String c s' =>
      if is_space c then
        (if String.eqb cur EmptyString then split_go s' EmptyString else cur :: split_go s' EmptyString)
      else split_go s' (cur ++ String c EmptyString)
  end.

(** [s.split()] *)
Definition py_split (s : string) : list string := split_go s EmptyString.

(** [" ".join(ws)] *)
Fixpoint join_space (ws : list string) : string :=
  match ws with
  | [] => EmptyString
  | [w] => w
  | w :: ws' => w ++ " " ++ join_space ws'
  end.

Definition is_ascii_digit (c : ascii) : bool :=
  let n := nat_of_ascii c in (48 <=? n)%nat && (n <=? 57)%nat.

(** [s.isdigit()] on ASCII digits. *)
Fixpoint all_digits (s : string) : bool :=
  match s with
  | EmptyString => true
  | String c s' => is_ascii_digit c && all_digits s'
  end.

Definition py_isdigit (s : string) : bool :=
  negb (String.eqb s EmptyString) && all_digits s.

(** membership in a Python set of strings *)
Definition mem (x : string) (xs : list string) : bool :=
  existsb (String.eqb x) xs.

(** [s[:n]]: the bytes of the first [n] code points (a continuation byte
    stays with the code point it continues). *)
Fixpoint take_cp (n : nat) (s : string) : string :=
  match s with
  | EmptyString => EmptyString
  | String c s' =>
      let k := nat_of_ascii c in
      if (k <? 128)%nat || (192 <=? k)%nat then
        match n with
        | O => EmptyString
        | S n' => String c (take_cp n' s')
        end
      else String c (take_cp n s')
  end.

Fixpoint split_sep_go (sep : ascii) (s cur : string) : list string :=
  match s with
  | EmptyString => [cur]
  | String c s' =>
      if Ascii.eqb c sep then cur :: split_sep_go sep s' EmptyString
      else split_sep_go sep s' (cur ++ String c EmptyString)
  end.

(** [s.split(sep)] for a one-character [sep]: empty pieces are kept. *)
Definition py_split_sep (sep : ascii) (s : string) : list string :=
  split_sep_go sep s EmptyString.

(** [xs.index(x)] (ValueError when absent) *)
Fixpoint py_index (x : string) (xs : list string) : option nat :=
  match xs with
  | [] => None
  | y :: ys =>
      if String.eqb x y then Some O
      else match py_index x ys with Some i => Some (S i) | None => None end
  end.

End PyStr.

Import PyStr.

(* ------------------------------------------------------------------ *)
(** * Exceptions *)

Inductive exn := KeyError | TypeError | ValueError.

Inductive result (A : Type) : Type :=
| Ok (a : A)
| Raise (e : exn).
Arguments Ok {A} a.
Arguments Raise {A} e.

Definition bind {A B} (m : result A) (k : A -> result B) : result B :=
  match m with
  | Ok a => k a
  | Raise e => Raise e
  end.

Notation "x <- m ;; k" := (bind m (fun x => k))
  (at level 61, m at next level, right associativity).

(* ------------------------------------------------------------------ *)
(** * Records (the article dicts) *)

Record article := mkArticle {
  title : option string;
  snippet : option string;
  link : option string;
  source : option string;
  published : option string;
  type : option string
}.

(** [article.get(k, d)] *)
Definition get (f : option string) (d : string) : string :=
  match f with Some v => v | None => d end.

(** [article[k]] *)
Definition req (f : option string) : result string :=
  match f with Some v => Ok v | None => Raise KeyError end.

(* ------------------------------------------------------------------ *)
(** * config.py *)

Definition BLACKLIST_DOMAINS : list string :=
  ["list.php"; "search"; "category"; "tag"; "bbs/board.php"; "main.php"; "/index";
   "view_all"; "login"; "deal"; "promo"; "membership"; "profile"; "attendance"].

Definition EXCLUDED_KEYWORDS : list string :=
  ["game"; "게임"; "게이밍"; "롤"; "LoL"; "배그"; "RPG"; "MMORPG"; "서버 로밍"; "Zone";
   "리그오브레전드"; "PUBG"; "아이템"; "서버이동"; "던파"; "메이플";
   "트래블로그"; "트래블월렛"; "환전"; "수수료"; "이벤트"; "광고"; "지급"; "쿠폰";
   "당첨"; "사전예약"; "카드"; "적금"].

(* ------------------------------------------------------------------ *)
(** * NewsCollector.validate_article *)

(** Returns [Some article] (the same record) or [None]. *)
Definition validate_article (a : article) : option article :=
  let lk := get (link a) EmptyString in
  let t := lower (get (title a) EmptyString) in
  let s := lower (get (snippet a) EmptyString) in
  if existsb (fun blocked => py_in blocked lk) BLACKLIST_DOMAINS then None
  else
    let combined_text := t ++ " " ++ s in
    if existsb (fun bad_word => py_in (lower bad_word) combined_text) EXCLUDED_KEYWORDS
    then None
    else if existsb (fun bad_word => py_in (lower bad_word) (lower lk)) EXCLUDED_KEYWORDS
    then None
    else Some a.

(* ------------------------------------------------------------------ *)
(** * CategoryClassifier.classify_article *)

(** [CATEGORY_KEYWORDS], in the dict's insertion order. *)
Definition CATEGORY_KEYWORDS : list (string * list string) :=
  [("market_culture",
     ["입국자"; "출국자"; "출입국자"; "입국자수"; "출국자수";
      "K-POP"; "케이팝"; "한류"; "한국 여행"; "일본 여행"; "중국 여행";
      "베트남 여행"; "필리핀 여행"; "해외 여행객"; "여행객수"; "관광객"]);
   ("global_trend", []);
   ("competitors",
     ["KT 로밍"; "KT 데이터"; "KT 로밍 요금제"; "kt 로밍"; "kt 데이터";
      "LGU+ 로밍"; "LG유플러스 로밍"; "lgu+ 로밍"; "lg유플러스";
      "KT 통신"; "LGU+ 통신"]);
   ("esim_products",
     ["도시락 esim"; "도시락이심"; "도시락 프로모션"; "도시락 할인";
      "말톡 esim"; "말톡이심"; "말톡 프로모션"; "말톡 할인";
      "유심사"; "이지이심"; "핀다이렉트"; "eSIM 프로모션"; "esim 프로모션"]);
   ("voc_roaming",
     ["로밍 후기"; "로밍 리뷰"; "로밍 추천"; "로밍 재구매";
      "로밍 사용기"; "로밍 사용법"; "로밍 추천"]);
   ("voc_esim",
     ["eSIM 후기"; "esim 후기"; "eSIM 리뷰"; "esim 리뷰";
      "eSIM 추천"; "esim 추천"; "eSIM 재구매"; "esim 재구매";
      "도시락 후기"; "말톡 후기"; "유심사 후기"; "이지이심 후기"])].

(** [cls.CATEGORY_KEYWORDS[category]]; every key of [priority_order] is
    present, so the empty default is never used. *)
Definition category_keywords (category : string) : list string :=
  match find (fun p => String.eqb (fst p) category) CATEGORY_KEYWORDS with
  | Some p => snd p
  | None => []
  end.

Definition priority_order : list string :=
  ["competitors"; "voc_roaming"; "esim_products"; "voc_esim"; "market_culture"].

Definition category_matches (category combined : string) : bool :=
  existsb (fun keyword => py_in (lower keyword) combined) (category_keywords category).

(** the [for category in priority_order] loop *)
Fixpoint first_category (order : list string) (combined : string) : option string :=
  match order with
  | [] => None
  | category :: rest =>
      if category_matches category combined then Some category
      else first_category rest combined
  end.

Definition classify_article (a : article) : string :=
  let t := lower (get (title a) EmptyString) in
  let s := lower (get (snippet a) EmptyString) in
  let combined := t ++ " " ++ s in
  if match type a with Some v => String.eqb v "global" | None => false end
  then "global_trend"
  else match first_category priority_order combined with
       | Some category => category
       | None => "other"
       end.

(* ------------------------------------------------------------------ *)
(** * NewsCollector.deduplicate *)

Definition clean_title (t : string) : string :=
  lower (py_replace (py_replace (py_replace (py_replace t " " EmptyString) "<b>" EmptyString) "</b>" EmptyString)
           "&quot;" EmptyString).

Definition dquote : string := String (ascii_of_nat 34) EmptyString.

(** the display clean-up applied to the title and snippet of survivors *)
Definition sanitize (t : string) : string :=
  py_replace (py_replace (py_replace (py_replace (py_replace (py_replace t
    "<b>" EmptyString) "</b>" EmptyString) "&quot;" dquote) "&amp;" "&") "&lt;" "<") "&gt;" ">".

(** The loop of [deduplicate] with its two seen-sets.  The Python code
    mutates the dicts in place and returns them; the model returns the
    values the returned list holds. *)
Fixpoint dedup_go (seen_titles seen_links : list string) (xs : list article)
  : result (list article) :=
  match xs with
  | [] => Ok []
  | a :: rest =>
      t <- req (title a) ;;
      let ct := clean_title t in
      if mem ct seen_titles then dedup_go seen_titles seen_links rest
      else
        l <- req (link a) ;;
        if mem l seen_links then dedup_go seen_titles seen_links rest
        else
          s <- req (snippet a) ;;
          let a' := {| title := Some (sanitize t); snippet := Some (sanitize s);
                       link := link a; source := source a;
                       published := published a; type := type a |} in
          ys <- dedup_go (ct :: seen_titles) (l :: seen_links) rest ;;
          Ok (a' :: ys)
  end.

Definition deduplicate (articles : list article) : result (list article) :=
  dedup_go [] [] articles.

(** a record carrying a title, a snippet and a link, whose title and
    snippet the display clean-up leaves unchanged *)
Definition display_clean (a : article) : Prop :=
  exists t s l, title a = Some t /\ snippet a = Some s /\ link a = Some l /\
                sanitize t = t /\ sanitize s = s.

(* ------------------------------------------------------------------ *)
(** * Dates and times *)

(** A [datetime.datetime]: the wall-clock fields as microseconds since
    1970-01-01 00:00 and the UTC offset in microseconds ([None]: naive).
    Time zones are fixed offsets, which is what the parsers below return. *)
Record datetime := mkDatetime {
  dt_wall : Z;
  dt_offset : option Z
}.

Definition US_PER_SEC : Z := 1000000.

(** days from 1970-01-01 to the proleptic Gregorian date y-m-d *)
Definition days_from_civil (y m d : Z) : Z :=
  let y' := if (m <=? 2)%Z then (y - 1)%Z else y in
  let era := (y' / 400)%Z in
  let yoe := (y' - era * 400)%Z in
  let mp := ((m + 9) mod 12)%Z in
  let doy := ((153 * mp + 2) / 5 + d - 1)%Z in
  let doe := (yoe * 365 + yoe / 4 - yoe / 100 + doy)%Z in
  (era * 146097 + doe - 719468)%Z.

Definition is_leap (y : Z) : bool :=
  ((y mod 4 =? 0)%Z && negb (y mod 100 =? 0)%Z) || (y mod 400 =? 0)%Z.

Definition days_in_month (y m : Z) : Z :=
  if (m =? 2)%Z then (if is_leap y then 29 else 28)%Z
  else if existsb (Z.eqb m) [4; 6; 9; 11]%Z then 30%Z else 31%Z.

(** [datetime(y, m, d, hh, mm, ss)]: ValueError when a field is out of range *)
Definition mk_datetime (y m d hh mm ss : Z) (off : option Z) : result datetime :=
  if (1 <=? y)%Z && (y <=? 9999)%Z && (1 <=? m)%Z && (m <=? 12)%Z &&
     (1 <=? d)%Z && (d <=? days_in_month y m)%Z &&
     (0 <=? hh)%Z && (hh <=? 23)%Z && (0 <=? mm)%Z && (mm <=? 59)%Z &&
     (0 <=? ss)%Z && (ss <=? 59)%Z
  then Ok {| dt_wall := ((days_from_civil y m d * 86400 + hh * 3600 + mm * 60 + ss)
                         * US_PER_SEC)%Z;
             dt_offset := off |}
  else Raise ValueError.

Definition digits_val (s : string) : Z :=
  fold_left (fun acc c => (acc * 10 + Z.of_nat (nat_of_ascii c - 48))%Z)
    (list_ascii_of_string s) 0%Z.

(** the [n] characters at [i], read as a decimal number *)
Definition num_at (s : string) (i n : nat) : option Z :=
  let t := substring i n s in
  if (String.length t =? n)%nat && all_digits t then Some (digits_val t) else None.

Definition char_at (s : string) (i : nat) (c : string) : bool :=
  String.eqb (substring i 1 s) c.

(** [datetime.datetime.strptime(published, "%Y%m%d")], called on eight
    ASCII digits: a naive datetime at midnight, ValueError on an invalid
    date. *)
Definition strptime_Ymd (p : string) : result datetime :=
  match num_at p 0 4, num_at p 4 2, num_at p 6 2 with
  | Some y, Some m, Some d => mk_datetime y m d 0 0 0 None
  | _, _, _ => Raise ValueError
  end.

(** [datetime.datetime.now(tz)] for an aware [tz] of the given offset *)
Definition datetime_now (now_utc : Z) (off : Z) : datetime :=
  {| dt_wall := (now_utc + off)%Z; dt_offset := Some off |}.

(** [a - b] in microseconds; TypeError between a naive and an aware value *)
Definition dt_sub (a b : datetime) : result Z :=
  match dt_offset a, dt_offset b with
  | Some oa, Some ob => Ok ((dt_wall a - oa) - (dt_wall b - ob))%Z
  | None, None => Ok (dt_wall a - dt_wall b)%Z
  | _, _ => Raise TypeError
  end.

(** The environment of a run: the current instant (UTC microseconds since
    the epoch) and the two date parsers of third-party libraries the code
    calls, [dateutil.parser.parse] and [email.utils.parsedate_to_datetime]. *)
Record env := mkEnv {
  now_us : Z;
  dateutil_parse : string -> result datetime;
  parsedate_to_datetime : string -> result datetime
}.

Definition MONTHS : list string :=
  ["Jan"; "Feb"; "Mar"; "Apr"; "May"; "Jun"; "Jul"; "Aug"; "Sep"; "Oct"; "Nov"; "Dec"].

Fixpoint index_of (x : string) (xs : list string) (i : Z) : option Z :=
  match xs with
  | [] => None
  | y :: ys => if String.eqb x y then Some i else index_of x ys (i + 1)%Z
  end.

(** The RFC 2822 date "Ddd, DD Mon YYYY HH:MM:SS +HHMM".  [zero_naive]
    selects the reading of the offset -0000: naive for [email.utils], UTC
    for dateutil. *)
Definition parse_rfc2822 (zero_naive : bool) (p : string) : result datetime :=
  if (String.length p =? 31)%nat && char_at p 3 "," && char_at p 4 " " &&
     char_at p 7 " " && char_at p 11 " " && char_at p 16 " " && char_at p 19 ":" &&
     char_at p 22 ":" && char_at p 25 " " && (char_at p 26 "+" || char_at p 26 "-")
  then
    match num_at p 5 2, index_of (substring 8 3 p) MONTHS 1, num_at p 12 4,
          num_at p 17 2, num_at p 20 2, num_at p 23 2, num_at p 27 2, num_at p 29 2 with
    | Some d, Some m, Some y, Some hh, Some mm, Some ss, Some oh, Some om =>
        let mag := ((oh * 3600 + om * 60) * US_PER_SEC)%Z in
        let off := if char_at p 26 "-" then (- mag)%Z else mag in
        mk_datetime y m d hh mm ss
          (if zero_naive && char_at p 26 "-" && (mag =? 0)%Z then None else Some off)
    | _, _, _, _, _, _, _, _ => Raise ValueError
    end
  else Raise ValueError.

(** The ISO 8601 date "YYYY-MM-DDTHH:MM:SS+HH:MM". *)
Definition parse_iso8601 (p : string) : result datetime :=
  if (String.length p =? 25)%nat && char_at p 4 "-" && char_at p 7 "-" &&
     char_at p 10 "T" && char_at p 13 ":" && char_at p 16 ":" &&
     (char_at p 19 "+" || char_at p 19 "-") && char_at p 22 ":"
  then
    match num_at p 0 4, num_at p 5 2, num_at p 8 2, num_at p 11 2, num_at p 14 2,
          num_at p 17 2, num_at p 20 2, num_at p 23 2 with
    | Some y, Some m, Some d, Some hh, Some mm, Some ss, Some oh, Some om =>
        let mag := ((oh * 3600 + om * 60) * US_PER_SEC)%Z in
        mk_datetime y m d hh mm ss (Some (if char_at p 19 "-" then (- mag)%Z else mag))
    | _, _, _, _, _, _, _, _ => Raise ValueError
    end
  else Raise ValueError.

(** Partial models of the two library parsers: they read the canonical
    shapes above and raise ValueError on every other string (the libraries
    accept more shapes).  Used only to run the code on concrete inputs; the
    general theorems hold for every [env]. *)
Definition dateutil_model (p : string) : result datetime :=
  match parse_iso8601 p with
  | Ok d => Ok d
  | Raise _ => parse_rfc2822 false p
  end.

Definition model_env (now : Z) : env :=
  {| now_us := now; dateutil_parse := dateutil_model;
     parsedate_to_datetime := parse_rfc2822 true |}.

(* ------------------------------------------------------------------ *)
(** * smart_filter.py: SmartFilter *)

Module SmartFilter.

Open Scope Q_scope.

(** Python [min(a, b)] and [max(a, b)]: the first argument unless the
    second is strictly smaller (larger). *)
Definition py_min (a b : Q) : Q := if Qle_bool a b then a else b.

Definition CORE_KEYWORDS : list (string * Q) :=
  [("로밍", 10); ("eSIM", 10); ("esim", 8); ("SKT 바로", 15); ("도시락 eSIM", 12);
   ("말톡", 10); ("유심사", 10); ("이지에심", 10); ("핀다이렉트", 10)].

Definition SECONDARY_KEYWORDS : list (string * Q) :=
  [("KT", 8); ("LGU+", 8); ("LG유플러스", 8); ("스타링크", 7); ("5G SA", 7);
   ("데이터 로밍", 9); ("해외 데이터", 8); ("여행 SIM", 8)].

Definition TELECOM_CONTEXT : list string :=
  ["통신"; "이동통신"; "요금제"; "데이터"; "네트워크";
   "속도"; "품질"; "커버리지"; "해외"; "여행"; "출국"].

Definition SOURCE_CREDIBILITY : list (string * Q) :=
  [("yna.co.kr", 100); ("newsis.com", 95); ("news1.kr", 95); ("hankyung.com", 95);
   ("mk.co.kr", 95); ("mt.co.kr", 95);
   ("zdnet.co.kr", 90); ("bloter.net", 90); ("etnews.com", 90);
   ("news.naver.com", 85); ("v.daum.net", 85);
   ("default", 60)].

Definition BLOG_PATTERNS : list string := ["blog.naver.com"; "tistory.com"; "brunch.co.kr"].
Definition CAFE_PATTERNS : list string := ["cafe.naver.com"; "cafe.daum.net"].
Definition COMMUNITY_PATTERNS : list string :=
  ["ppomppu.co.kr"; "clien.net"; "theqoo.net";
   "fmkorea.com"; "ruliweb.com"; "instiz.net"; "dcinside.com"].

Definition qnat (n : nat) : Q := inject_Z (Z.of_nat n).

(** [calculate_keyword_density_score] *)
Definition calculate_keyword_density_score (title snippet : string) : Q :=
  let combined_text := lower (title ++ " " ++ snippet) in
  let text_length := py_len combined_text in
  if (text_length =? 0)%nat then 0
  else
    let core := fold_left (fun total_score kw =>
        let count := py_count combined_text (lower (fst kw)) in
        if (0 <? count)%nat then total_score + qnat (Nat.min count 3) * snd kw
        else total_score) CORE_KEYWORDS 0 in
    let total_score := fold_left (fun total_score kw =>
        let count := py_count combined_text (lower (fst kw)) in
        if (0 <? count)%nat then total_score + qnat (Nat.min count 2) * snd kw * (7 # 10)
        else total_score) SECONDARY_KEYWORDS core in
    let normalized_score := total_score / qnat text_length * 500 in
    py_min normalized_score 100.

(** [self.SOURCE_CREDIBILITY[key]] (always present for "default") *)
Definition credibility_at (key : string) : Q :=
  match find (fun p => String.eqb (fst p) key) SOURCE_CREDIBILITY with
  | Some p => snd p
  | None => 0
  end.

Fixpoint first_domain (table : list (string * Q)) (lk : string) : option Q :=
  match table with
  | [] => None
  | (domain, score) :: rest =>
      if negb (String.eqb domain "default") && py_in domain lk then Some score
      else first_domain rest lk
  end.

(** [calculate_source_credibility] *)
Definition calculate_source_credibility (lk : string) : Q :=
  match first_domain SOURCE_CREDIBILITY lk with
  | Some score => score
  | None =>
      if existsb (fun pattern => py_in pattern lk) (BLOG_PATTERNS ++ CAFE_PATTERNS) then 60
      else if existsb (fun pattern => py_in pattern lk) COMMUNITY_PATTERNS then 40
      else credibility_at "default"
  end.

Definition freshness_bucket (hours_ago : Q) : Q :=
  if Qle_bool hours_ago 6 then 100
  else if Qle_bool hours_ago 12 then 80
  else if Qle_bool hours_ago 24 then 60
  else if Qle_bool hours_ago 48 then 40
  else 20.

(** the body of the [try] block of [calculate_freshness_score] *)
Definition freshness_try (e : env) (p : string) : result Q :=
  pub_date <- (if py_in "T" p || py_in "+" p then dateutil_parse e p
               else if (py_len p =? 8)%nat && py_isdigit p then strptime_Ymd p
               else parsedate_to_datetime e p) ;;
  let now := datetime_now (now_us e)
               (match dt_offset pub_date with Some o => o | None => 0%Z end) in
  diff <- dt_sub now pub_date ;;
  let hours_ago := inject_Z diff / inject_Z (3600 * US_PER_SEC) in
  Ok (freshness_bucket hours_ago).

(** [calculate_freshness_score]: every exception of the [try] block is
    caught by [except Exception] and gives 50. *)
Definition calculate_freshness_score (e : env) (published : option string) : Q :=
  match published with
  | None => 50
  | Some p =>
      if String.eqb p EmptyString then 50
      else match freshness_try e p with
           | Ok score => score
           | Raise _ => 50
           end
  end.

(** [calculate_competitor_bonus] (Python int arithmetic) *)
Definition calculate_competitor_bonus (title snippet : string) : Q :=
  let combined_text := lower (title ++ " " ++ snippet) in
  let has_kt := py_in "kt" combined_text || py_in "kt-" combined_text in
  let has_lgu := py_in "lgu+" combined_text || py_in "lg유플러스" combined_text in
  let has_skt := py_in "skt" combined_text || py_in "sk텔레콤" combined_text in
  let bonus := 0%Z in
  let bonus := if has_kt || has_lgu then (bonus + 30)%Z else bonus in
  let bonus := if has_skt then (bonus - 10)%Z else bonus in
  inject_Z (Z.max bonus 0).

Definition strong_game_signals : list string :=
  ["리그오브레전드"; "롤드컵"; "롤체전"; "LoL"; "PUBG"; "배그";
   "MMORPG"; "서버 이동"; "소환사의 협곡"].

Definition roll_game_context : list string := ["챔피언"; "티어"; "랭크"; "게임"].

(** the [for i, word in enumerate(words)] loop over the "롤" words;
    [prev] is [words[i-1]] when [i > 0] *)
Fixpoint roll_context_go (prev : option string) (words : list string) : bool :=
  match words with
  | [] => false
  | word :: rest =>
      (py_in "롤" word &&
       let context_words :=
         app (match prev with Some w => [w] | None => [] end)
             (match rest with w :: _ => [w] | [] => [] end) in
       let context := join_space context_words in
       existsb (fun game_kw => py_in game_kw context) roll_game_context)
      || roll_context_go (Some word) rest
  end.

(** [is_game_related] *)
Definition is_game_related (title snippet : string) : bool :=
  let combined_text := lower (title ++ " " ++ snippet) in
  existsb (fun signal =>
      py_in (lower signal) combined_text &&
      negb (existsb (fun kw => py_in kw combined_text) TELECOM_CONTEXT))
    strong_game_signals
  || (py_in "롤" combined_text && roll_context_go None (py_split combined_text)).

(** the weighted sum shared by the two scoring entry points *)
Definition weighted_total (keyword_score source_score freshness_score competitor_bonus : Q) : Q :=
  keyword_score * (4 # 10) + source_score * (3 # 10) +
  freshness_score * (2 # 10) + competitor_bonus * (1 # 10).

(** [calculate_relevance_score] *)
Definition calculate_relevance_score (e : env) (a : article) : Q :=
  let t := get (title a) EmptyString in
  let s := get (snippet a) EmptyString in
  let lk := get (link a) EmptyString in
  if is_game_related t s then 0
  else
    let keyword_score := calculate_keyword_density_score t s in
    let source_score := calculate_source_credibility lk in
    let freshness_score := calculate_freshness_score e (published a) in
    let competitor_bonus := calculate_competitor_bonus t s in
    py_min (weighted_total keyword_score source_score freshness_score competitor_bonus) 100.

(** Python [round(x, 2)], rounding half to even on the exact value. *)
Definition round2 (x : Q) : Q :=
  let n := x * 100 in
  let fl := Qfloor n in
  let fr := n - inject_Z fl in
  let r := if negb (Qle_bool (1 # 2) fr) then fl
           else if negb (Qle_bool fr (1 # 2)) then (fl + 1)%Z
           else if Z.even fl then fl else (fl + 1)%Z in
  inject_Z r / 100.

(** The [details] entry: the fixed game text, or the list of
    (label, value) items that [_get_pass_reason] / [_get_fail_reason]
    format with [:.1f] (the text formatting is not modelled). *)
Inductive details :=
| DetailText (s : string)
| PassReasons (items : list (string * Q))
| FailReasons (threshold : Q) (items : list (string * Q)).

Record filter_info := mkInfo {
  filtered : bool;
  reason : string;
  score : Q;
  info_details : details
}.

Definition get_pass_reason (keyword_score source_score freshness_score competitor_bonus : Q) :=
  PassReasons (
    (if negb (Qle_bool keyword_score 20) then [("핵심 키워드 포함", keyword_score)] else []) ++
    (if negb (Qle_bool source_score 80) then [("신뢰도 높은 출처", source_score)] else []) ++
    (if negb (Qle_bool freshness_score 60) then [("최신 기사", freshness_score)] else []) ++
    (if negb (Qle_bool competitor_bonus 0) then [("경쟁사 관련 기사", competitor_bonus)] else []))%list.

Definition get_fail_reason (keyword_score source_score freshness_score competitor_bonus threshold : Q) :=
  FailReasons threshold (
    (if negb (Qle_bool 15 keyword_score) then [("관련 키워드 부족", keyword_score)] else []) ++
    (if negb (Qle_bool 50 source_score) then [("신뢰도 낮은 출처", source_score)] else []) ++
    (if negb (Qle_bool 40 freshness_score) then [("오래된 기사", freshness_score)] else []))%list.

Definition competitor_title_keywords : list string := ["kt"; "lgu+"; "lg유플러스"].

(** [is_competitor] of [should_include_for_ai] *)
Definition is_competitor (t : string) : bool :=
  existsb (fun kw => py_in kw (lower t)) competitor_title_keywords.

(** [adjusted_threshold] of [should_include_for_ai] *)
Definition adjusted_threshold (t : string) (threshold : Q) : Q :=
  if is_competitor t then 20 else threshold.

(** [should_include_for_ai] (the default threshold of the caller is 30) *)
Definition should_include_for_ai (e : env) (a : article) (threshold : Q) : bool * filter_info :=
  let t := get (title a) EmptyString in
  let s := get (snippet a) EmptyString in
  let lk := get (link a) EmptyString in
  if is_game_related t s then
    (false, {| filtered := true; reason := "게임 관련 기사"; score := 0;
               info_details := DetailText "리그오브레전드, LoL, PUBG 등 게임 키워드 감지" |})
  else
    let keyword_score := calculate_keyword_density_score t s in
    let source_score := calculate_source_credibility lk in
    let freshness_score := calculate_freshness_score e (published a) in
    let competitor_bonus := calculate_competitor_bonus t s in
    let total_score :=
      py_min (weighted_total keyword_score source_score freshness_score competitor_bonus) 100 in
    let thr := adjusted_threshold t threshold in
    if Qle_bool thr total_score then
      (true, {| filtered := false; reason := "통과"; score := round2 total_score;
                info_details := get_pass_reason keyword_score source_score
                                  freshness_score competitor_bonus |})
    else
      (false, {| filtered := true; reason := "관련성 점수 미달"; score := round2 total_score;
                 info_details := get_fail_reason keyword_score source_score
                                   freshness_score competitor_bonus thr |}).

Definition roll_context_keywords : list string :=
  ["리그오브레전드"; "롤체"; "롤드컵"; "티어"; "랭크"; "챔피언"; "소환사"].

(** [contextual_keyword_check] *)
Definition contextual_keyword_check (title snippet keyword : string) : bool :=
  let combined_text := lower (title ++ " " ++ snippet) in
  if String.eqb keyword "롤" then
    let has_game_context :=
      existsb (fun game_kw => py_in game_kw combined_text) roll_context_keywords in
    let has_telecom_context :=
      existsb (fun telecom_kw => py_in telecom_kw combined_text) TELECOM_CONTEXT in
    if has_game_context && negb has_telecom_context then false
    else if has_telecom_context then true
    else true
  else true.

(** The [info] dict of [should_include_for_ai] after [filter_articles_for_ai]
    has added the keys title, link and source. *)
Record info_entry := mkEntry {
  entry_info : filter_info;
  entry_title : string;
  entry_link : string;
  entry_source : string
}.

(** [filter_articles_for_ai]: the filtered articles and the [filter_info]
    list (the debug summary only prints). *)
Fixpoint filter_articles_for_ai (e : env) (articles : list article) (threshold : Q)
  : list article * list info_entry :=
  match articles with
  | [] => ([], [])
  | article :: rest =>
      let (should_include, info) := should_include_for_ai e article threshold in
      let entry := {| entry_info := info;
                      entry_title := take_cp 60 (get (title article) EmptyString);
                      entry_link := get (link article) EmptyString;
                      entry_source := get (source article) EmptyString |} in
      let (filtered, filter_info) := filter_articles_for_ai e rest threshold in
      (if should_include then article :: filtered else filtered, entry :: filter_info)
  end.

End SmartFilter.

(* ------------------------------------------------------------------ *)
(** * classifier.py: DataClassifier *)

Module DataClassifier.

Definition COMMUNITY_DOMAINS : list string :=
  ["cafe.naver.com"; "ppomppu.co.kr"; "clien.net";
   "theqoo.net"; "fmkorea.com"; "ruliweb.com";
   "instiz.net"; "dcinside.com"; "threads.net"; "threads.com"].

Definition NEWS_DOMAINS : list string :=
  ["news.naver.com"; "v.daum.net"; "yna.co.kr";
   "zdnet.co.kr"; "bloter.net"; "etnews.com";
   "hankyung.com"; "mk.co.kr"; "mt.co.kr";
   "newsis.com"; "news1.kr"].

Definition news_keywords : list string :=
  ["기자"; "밝혔다"; "발표했다"; "뉴스"; "보도"; "출시"; "공개"].

Definition community_keywords : list string :=
  ["해요"; "했음"; "추천좀"; "질문"; "후기"; "ㅠㅠ"; "ㅋㅋ"; "ㅎㅎ"].

(** [classify_item] *)
Definition classify_item (item : article) : string :=
  let lk := get (link item) EmptyString in
  let t := get (title item) EmptyString in
  let s := get (snippet item) EmptyString in
  if existsb (fun domain => py_in domain lk) COMMUNITY_DOMAINS then "community"
  else if existsb (fun domain => py_in domain lk) NEWS_DOMAINS then "news"
  else
    let combined_text := t ++ " " ++ s in
    if existsb (fun k => py_in k combined_text) news_keywords then "news"
    else if existsb (fun k => py_in k combined_text) community_keywords then "community"
    else if py_in "news" lk || py_in "article" lk then "news"
    else "community".

(** [item.get('link')]: [None] when the key is missing; [None] is a set
    element like any other. *)
Definition link_eqb (a b : option string) : bool :=
  match a, b with
  | Some x, Some y => String.eqb x y
  | None, None => true
  | _, _ => false
  end.

Definition link_mem (x : option string) (seen : list (option string)) : bool :=
  existsb (link_eqb x) seen.

Record classified_data := mkClassified {
  news : list article;
  community : list article
}.

(** the loop of [process_and_deduplicate]: the two lists, in append order *)
Fixpoint process_go (seen_links : list (option string)) (items : list article)
  : list article * list article :=
  match items with
  | [] => ([], [])
  | item :: rest =>
      let lk := link item in
      if link_mem lk seen_links then process_go seen_links rest
      else
        let (n, c) := process_go (lk :: seen_links) rest in
        if String.eqb (classify_item item) "news" then (item :: n, c) else (n, item :: c)
  end.

Definition process_and_deduplicate (items : list article) : classified_data :=
  let (n, c) := process_go [] items in
  {| news := n; community := c |}.

End DataClassifier.

(* ------------------------------------------------------------------ *)
(** * news_collector.py: check_time_validity and clean_naver_link *)

Module CollectorLinks.

(** [check_time_validity], with the current UTC instant [now_utc]
    ([pub_date_obj] is a datetime or [None]; a datetime is always truthy). *)
Definition check_time_validity (now_utc : Z) (pub_date_obj : option datetime) : result bool :=
  match pub_date_obj with
  | None => Ok true
  | Some d =>
      let now := datetime_now now_utc 0 in
      let d' := match dt_offset d with
                | None => {| dt_wall := dt_wall d; dt_offset := Some 0%Z |}
                | Some _ => d
                end in
      diff <- dt_sub now d' ;;
      Ok (diff <? 24 * 3600 * US_PER_SEC)%Z
  end.

(** [datetime.timedelta(hours=24)] in microseconds *)
Definition DAY_US : Z := (24 * 3600 * US_PER_SEC)%Z.

(** The parts of [urllib.parse] that [clean_naver_link] reads:
    [urlparse(link).path], [urlparse(link).query] and
    [parse_qs(query).get(k, [''])[0]] ([parse_qs] never maps a key to an
    empty list). *)
Record urllib := mkUrllib {
  urlparse_path : string -> string;
  urlparse_query : string -> string;
  parse_qs_first : string -> string -> string
}.

(** Python truthiness of a [str] or [None] variable *)
Definition truthy (o : option string) : bool :=
  match o with Some v => negb (String.eqb v EmptyString) | None => false end.

Definition landing_patterns : list string := ["/ca-fe/"; "/MyCafeIntro/"; "/Entry/"; "/cafes/"].

Definition skipped_parts : list string :=
  [EmptyString; "cafe.naver.com"; "nview"; "ca-fe"; "cafes"; "articles"].

(** [path_parts[idx + 1]] after [x] when [x in path_parts] and it exists *)
Definition part_after (x : string) (path_parts : list string) : option string :=
  match py_index x path_parts with
  | Some idx =>
      if (S idx <? length path_parts)%nat then Some (nth (S idx) path_parts EmptyString)
      else None
  | None => None
  end.

(** the [for i, part in enumerate(path_parts)] loop of the direct form *)
Fixpoint direct_go (path_parts : list string) (cafe_id article_id : option string)
  : option string * option string :=
  match path_parts with
  | [] => (cafe_id, article_id)
  | part :: rest =>
      if negb (String.eqb part EmptyString) && negb (mem part skipped_parts) then
        if negb (truthy cafe_id) then direct_go rest (Some part) article_id
        else if negb (truthy article_id) then (cafe_id, Some part)
        else direct_go rest cafe_id article_id
      else direct_go rest cafe_id article_id
  end.

Definition cafe_rewrite (u : urllib) (link : string) : option string :=
  let path_parts := py_split_sep "/"%char (urlparse_path u link) in
  let article_id := part_after "articles" path_parts in
  let cafe_id := part_after "cafes" path_parts in
  let q := urlparse_query u link in
  let article_id := if truthy article_id then article_id
                    else Some (parse_qs_first u q "articleId") in
  let cafe_id := if truthy cafe_id then cafe_id else Some (parse_qs_first u q "cafeId") in
  let (cafe_id, article_id) :=
    if negb (truthy article_id && truthy cafe_id) && (4 <=? length path_parts)%nat
    then direct_go path_parts cafe_id article_id
    else (cafe_id, article_id) in
  match cafe_id, article_id with
  | Some c, Some a =>
      if truthy cafe_id && truthy article_id
      then Some ("https://cafe.naver.com/" ++ c ++ "/" ++ a)
      else None
  | _, _ => None
  end.

(** [clean_naver_link] ([category] is not read) *)
Definition clean_naver_link (u : urllib) (link category : string) : string :=
  if String.eqb link EmptyString then link
  else if py_in "/blog.naver.com/" link && negb (py_in "/Promotion" link) &&
          (py_in "/blog.naver.com/" link && (5 <=? length (py_split_sep "/"%char link))%nat)
  then link
  else if py_in "news.naver.com/" link && py_in "view.nhn" link then link
  else if py_in "/cafe.naver.com/" link && py_in "/cafe.naver.com/" link &&
          negb (existsb (fun pattern => py_in pattern link) landing_patterns)
  then link
  else
    let blog :=
      if py_in "/blog.naver.com/" link && (py_in "/Promotion" link || py_in "blogId=" link) then
        let q := urlparse_query u link in
        let blog_id := parse_qs_first u q "blogId" in
        let log_no := parse_qs_first u q "logNo" in
        if negb (String.eqb blog_id EmptyString) && negb (String.eqb log_no EmptyString)
        then Some ("https://blog.naver.com/" ++ blog_id ++ "/" ++ log_no)
        else None
      else None in
    match blog with
    | Some r => r
    | None =>
        if py_in "/cafe.naver.com/" link then
          match cafe_rewrite u link with Some r => r | None => link end
        else link
    end.

End CollectorLinks.

(* ------------------------------------------------------------------ *)
(** * news_analyzer.py: sort_by_date of analyze_and_summarize *)

Module NewsAnalyzer.

(** [(x.get('published') is None, x.get('published') or '')] *)
Definition date_key (x : article) : bool * string :=
  (match published x with None => true | Some _ => false end, get (published x) EmptyString).

(** [a >= b] on the key tuples: [False < True], then string order *)
Definition key_ge (a b : bool * string) : bool :=
  match a, b with
  | (true, _), (false, _) => true
  | (false, _), (true, _) => false
  | (_, sa), (_, sb) => String.leb sb sa
  end.

(** insertion after every element with a key at least as large *)
Fixpoint insert_desc (x : article) (ys : list article) : list article :=
  match ys with
  | [] => [x]
  | y :: ys' => if key_ge (date_key y) (date_key x) then y :: insert_desc x ys' else x :: ys
  end.

(** [sorted(items, key=..., reverse=True)]: a stable sort in descending key
    order (records of equal key keep their input order), computed by
    insertion. *)
Definition sort_by_date (items : list article) : list article :=
  fold_left (fun acc x => insert_desc x acc) items [].

Definition max_per_category : nat := 10.

(** the first component of the sort key: [x.get('published') is None] *)
Definition undated (x : article) : bool := fst (date_key x).

(** consecutive positions of the sorted list *)
Definition date_order (a b : article) : Prop := key_ge (date_key a) (date_key b) = true.

(** [sort_by_date(items)[:max_per_category]] *)
Definition select_latest (items : list article) : list article :=
  firstn max_per_category (sort_by_date items).

End NewsAnalyzer.

(* ------------------------------------------------------------------ *)
(** * Concrete inputs *)

Module Samples.

(** 2026-01-19 06:00 UTC (15:00 KST), in microseconds since the epoch *)
Definition sample_now : Z := ((days_from_civil 2026 1 19 * 86400 + 6 * 3600) * US_PER_SEC)%Z.

Definition sample_env : env := model_env sample_now.

Fixpoint repeat_str (n : nat) (u : string) : string :=
  match n with O => EmptyString | S n' => u ++ repeat_str n' u end.

(** test case 2 of [run_test_scenarios] *)
Definition game_article : article :=
  {| title := Some "롤드컵 2024, 리그오브레전드 서버 로밍으로 인한 지연 현상 발생";
     snippet := Some "리그오브레전드 롤드컵 경기 중 서버 로밍 기능으로 인한 핑 문제가 발생했다. 선수들은...";
     link := Some "https://www.inven.co.kr/webzine/news/?news=12345";
     source := Some "Inven";
     published := Some "Mon, 19 Jan 2026 14:30:00 +0900";
     type := Some "domestic" |}.

(** test case 4 of [run_test_scenarios] (the inner quotes left out) *)
Definition esim_article : article :=
  {| title := Some "도시락 eSIM, 일본 여행객 대상 프로모션 진행... 로밍비 80% 절감";
     snippet := Some "도시락 eSIM이 일본 여행객을 대상으로 특별 프로모션을 진행한다고 밝혔다. 기존 로밍 서비스 대비...";
     link := Some "https://blog.naver.com/dosirak_esim/2212345678";
     source := Some "Naver Blog";
     published := Some "20260119";
     type := Some "domestic" |}.

(** a KT article with a long snippet, from a community site, a week old *)
Definition kt_community_article : article :=
  {| title := Some "KT";
     snippet := Some (repeat_str 1500 "가");
     link := Some "https://www.clien.net/service/board/news/1";
     source := Some "clien";
     published := Some "Mon, 12 Jan 2026 12:00:00 -0500";
     type := Some "domestic" |}.

(** an SKT article with a long snippet, from a community site, undated *)
Definition skt_community_article : article :=
  {| title := Some "SKT 요금제 개편";
     snippet := Some (repeat_str 400 "가");
     link := Some "https://www.clien.net/service/board/news/2";
     source := Some "clien";
     published := None;
     type := Some "domestic" |}.

(** two records with titles differing only by an HTML entity *)
Definition entity_title_article : article :=
  {| title := Some "KT &quot;로밍&quot; 요금제 개편"; snippet := Some "요금제 안내";
     link := Some "https://news.naver.com/a/1"; source := None; published := None;
     type := Some "domestic" |}.

Definition quoted_title_article : article :=
  {| title := Some ("KT " ++ dquote ++ "로밍" ++ dquote ++ " 요금제 개편");
     snippet := Some "요금제 안내";
     link := Some "https://news.naver.com/a/2"; source := None; published := None;
     type := Some "domestic" |}.

(** two records with an empty link and different titles *)
Definition empty_link_first : article :=
  {| title := Some "eSIM 신규 출시"; snippet := Some "도시락 eSIM"; link := Some EmptyString;
     source := None; published := None; type := Some "domestic" |}.

Definition empty_link_second : article :=
  {| title := Some "로밍 요금제 인하"; snippet := Some "해외 데이터"; link := Some EmptyString;
     source := None; published := None; type := Some "domestic" |}.

(** an article of Wednesday 7 January, five days before [kt_community_article] *)
Definition wednesday_article : article :=
  {| title := Some "로밍 요금제 안내"; snippet := Some "해외 데이터 로밍";
     link := Some "https://n.news.naver.com/article/001/0000000001"; source := Some "연합뉴스";
     published := Some "Wed, 07 Jan 2026 09:00:00 +0900"; type := Some "domestic" |}.

Fixpoint split_first (c : ascii) (s : string) : string * option string :=
  match s with
  | EmptyString => (EmptyString, None)
  | String x s' =>
      if Ascii.eqb x c then (EmptyString, Some s')
      else let (a, b) := split_first c s' in (String x a, b)
  end.

(** A partial model of [urllib.parse] for "https://host/path?query" links
    without fragment or percent escapes, used to run [clean_naver_link]. *)
Definition sample_urllib : CollectorLinks.urllib :=
  {| CollectorLinks.urlparse_path := fun lk =>
       match split_first "/" (drop 8 (fst (split_first "?" lk))) with
       | (_, Some p) => "/" ++ p
       | (_, None) => EmptyString
       end;
     CollectorLinks.urlparse_query := fun lk =>
       match snd (split_first "?" lk) with Some q => q | None => EmptyString end;
     CollectorLinks.parse_qs_first := fun q k =>
       match find (fun kv => String.eqb (fst kv) k && negb (String.eqb (snd kv) EmptyString))
               (map (fun part => let (a, b) := split_first "=" part in
                                 (a, match b with Some v => v | None => EmptyString end))
                    (py_split_sep "&" q)) with
       | Some kv => snd kv
       | None => EmptyString
       end |}.

End Samples.

(* ================================================================== *)
(** * Properties *)

Module ScoreFacts.

Import SmartFilter.
Open Scope Q_scope.

Lemma py_min_le_r (a b : Q) : py_min a b <= b.
Proof.
  unfold py_min. destruct (Qle_bool a b) eqn:H.
  - apply Qle_bool_iff in H. exact H.
  - apply Qle_refl.
Qed.

Lemma py_min_ge (c a b : Q) : c <= a -> c <= b -> c <= py_min a b.
Proof. unfold py_min. destruct (Qle_bool a b); auto. Qed.

Lemma qnat_nonneg (n : nat) : 0 <= qnat n.
Proof. unfold qnat. change 0 with (inject_Z 0). rewrite <- Zle_Qle. lia. Qed.

Lemma qnat_pos (n : nat) : (0 < n)%nat -> 0 < qnat n.
Proof. intro H. unfold qnat. change 0 with (inject_Z 0). rewrite <- Zlt_Qlt. lia. Qed.

Lemma fold_left_nonneg {A : Type} (f : Q -> A -> Q) (l : list A) (acc : Q) :
  (forall t x, In x l -> 0 <= t -> 0 <= f t x) -> 0 <= acc -> 0 <= fold_left f l acc.
Proof.
  revert acc. induction l as [|x l IH]; intros acc Hf Hacc; simpl; [exact Hacc|].
  apply IH.
  - intros t y Hy Ht. apply Hf; [right; exact Hy | exact Ht].
  - apply Hf; [left; reflexivity | exact Hacc].
Qed.

Lemma weights_nonneg (l : list (string * Q)) :
  Forall (fun kw => 0 <= snd kw) l -> forall kw, In kw l -> 0 <= snd kw.
Proof. intros H kw Hin. rewrite Forall_forall in H. exact (H kw Hin). Qed.

Lemma core_weights : Forall (fun kw => 0 <= snd kw) CORE_KEYWORDS.
Proof. repeat constructor; discriminate. Qed.

Lemma secondary_weights : Forall (fun kw => 0 <= snd kw) SECONDARY_KEYWORDS.
Proof. repeat constructor; discriminate. Qed.

Lemma keyword_density_bounds (t s : string) :
  0 <= calculate_keyword_density_score t s <= 100.
Proof.
  unfold calculate_keyword_density_score.
  set (c := lower (t ++ " " ++ s)).
  destruct (py_len c =? 0)%nat eqn:Hlen; [split; discriminate|].
  apply Nat.eqb_neq in Hlen.
  split; [|apply py_min_le_r].
  apply py_min_ge; [|discriminate].
  apply Qmult_le_0_compat; [|discriminate].
  apply Qmult_le_0_compat.
  - apply fold_left_nonneg.
    + intros acc kw Hin Hacc.
      destruct (0 <? py_count c (lower (fst kw)))%nat; [|exact Hacc].
      pose proof (weights_nonneg _ secondary_weights kw Hin) as Hw.
      pose proof (Qmult_le_0_compat _ _ (qnat_nonneg (Nat.min (py_count c (lower (fst kw))) 2)) Hw).
      lra.
    + apply fold_left_nonneg; [|lra].
      intros acc kw Hin Hacc.
      destruct (0 <? py_count c (lower (fst kw)))%nat; [|exact Hacc].
      pose proof (weights_nonneg _ core_weights kw Hin) as Hw.
      pose proof (Qmult_le_0_compat _ _ (qnat_nonneg (Nat.min (py_count c (lower (fst kw))) 3)) Hw).
      lra.
  - apply Qinv_le_0_compat, qnat_nonneg.
Qed.

Lemma first_domain_in (table : list (string * Q)) (lk : string) (sc : Q) :
  first_domain table lk = Some sc -> exists d, In (d, sc) table.
Proof.
  induction table as [|[d v] table IH]; simpl; [discriminate|].
  destruct (negb (String.eqb d "default") && py_in d lk).
  - intro H. inversion H; subst. exists d. left. reflexivity.
  - intro H. destruct (IH H) as [d' Hd']. exists d'. right. exact Hd'.
Qed.

Lemma source_codomain (lk : string) :
  let v := calculate_source_credibility lk in
  v = 40 \/ v = 60 \/ v = 85 \/ v = 90 \/ v = 95 \/ v = 100.
Proof.
  unfold calculate_source_credibility.
  destruct (first_domain SOURCE_CREDIBILITY lk) as [sc|] eqn:E.
  - apply first_domain_in in E. destruct E as [d Hin]. simpl in Hin.
    repeat (destruct Hin as [Hin|Hin]; [inversion Hin; subst; simpl; tauto|]).
    contradiction.
  - destruct (existsb _ (BLOG_PATTERNS ++ CAFE_PATTERNS)); [tauto|].
    destruct (existsb _ COMMUNITY_PATTERNS); [tauto|].
    right; left; reflexivity.
Qed.

Lemma source_ge_40 (lk : string) : 40 <= calculate_source_credibility lk <= 100.
Proof.
  destruct (source_codomain lk) as [H|[H|[H|[H|[H|H]]]]]; rewrite H; split; discriminate.
Qed.

Lemma bucket_codomain (h : Q) :
  let v := freshness_bucket h in v = 20 \/ v = 40 \/ v = 60 \/ v = 80 \/ v = 100.
Proof.
  unfold freshness_bucket.
  destruct (Qle_bool h 6); [tauto|].
  destruct (Qle_bool h 12); [tauto|].
  destruct (Qle_bool h 24); [tauto|].
  destruct (Qle_bool h 48); tauto.
Qed.

Lemma freshness_try_ok (e : env) (p : string) (v : Q) :
  freshness_try e p = Ok v -> exists h, v = freshness_bucket h.
Proof.
  unfold freshness_try, bind.
  destruct (if py_in "T" p || py_in "+" p then _ else _) as [d|x]; [|discriminate].
  destruct (dt_sub _ d) as [diff|x]; [|discriminate].
  intro H. inversion H. eexists. reflexivity.
Qed.

Lemma freshness_codomain (e : env) (p : option string) :
  let v := calculate_freshness_score e p in
  v = 20 \/ v = 40 \/ v = 50 \/ v = 60 \/ v = 80 \/ v = 100.
Proof.
  unfold calculate_freshness_score.
  destruct p as [p|]; [|tauto].
  destruct (String.eqb p EmptyString); [tauto|].
  destruct (freshness_try e p) as [v|x] eqn:Hf; [|tauto].
  apply freshness_try_ok in Hf. destruct Hf as [h ->].
  destruct (bucket_codomain h) as [H|[H|[H|[H|H]]]]; rewrite H; tauto.
Qed.

Lemma freshness_ge_20 (e : env) (p : option string) :
  20 <= calculate_freshness_score e p <= 100.
Proof.
  destruct (freshness_codomain e p) as [H|[H|[H|[H|[H|H]]]]]; rewrite H; split; discriminate.
Qed.

Lemma bonus_codomain (t s : string) :
  let v := calculate_competitor_bonus t s in v = 0 \/ v = 20 \/ v = 30.
Proof.
  unfold calculate_competitor_bonus.
  destruct (_ || _ || _); destruct (_ || _); simpl; auto.
Qed.

Lemma bonus_bounds (t s : string) : 0 <= calculate_competitor_bonus t s <= 30.
Proof.
  destruct (bonus_codomain t s) as [H|[H|H]]; rewrite H; split; discriminate.
Qed.

Lemma Z_to_Q_le (a b : Z) : (a <= b)%Z -> inject_Z a <= inject_Z b.
Proof. intro H. rewrite <- Zle_Qle. exact H. Qed.

Lemma round2_bounds (x : Q) : 0 <= x <= 100 -> 0 <= round2 x <= 100.
Proof.
  intros [H0 H1]. unfold round2. cbv zeta.
  set (n := x * 100). set (fl := Qfloor n).
  assert (Hfl : inject_Z fl <= n) by apply Qfloor_le.
  assert (Hlt : n < inject_Z fl + 1).
  { pose proof (Qlt_floor n) as H. rewrite inject_Z_plus in H. exact H. }
  assert (Hn0 : 0 <= n) by (unfold n; lra).
  assert (Hn1 : n <= 10000) by (unfold n; lra).
  assert (Z0 : (0 <= fl)%Z).
  { destruct (Z_lt_le_dec fl 0) as [Hz|Hz]; [|exact Hz].
    assert (Hq : inject_Z fl <= inject_Z (-1)) by (apply Z_to_Q_le; lia).
    change (inject_Z (-1)) with (-1) in Hq. lra. }
  assert (Z1 : (fl <= 10000)%Z).
  { destruct (Z_lt_le_dec 10000 fl) as [Hz|Hz]; [|exact Hz].
    assert (Hq : inject_Z 10001 <= inject_Z fl) by (apply Z_to_Q_le; lia).
    change (inject_Z 10001) with 10001 in Hq. lra. }
  set (r := if negb (Qle_bool (1 # 2) (n - inject_Z fl)) then fl
            else if negb (Qle_bool (n - inject_Z fl) (1 # 2)) then (fl + 1)%Z
            else if Z.even fl then fl else (fl + 1)%Z).
  assert (Hr : (0 <= r <= 10000)%Z).
  { unfold r.
    destruct (Qle_bool (1 # 2) (n - inject_Z fl)) eqn:Ha; simpl; [|lia].
    apply Qle_bool_iff in Ha.
    assert (Z2 : (fl <= 9999)%Z).
    { destruct (Z_lt_le_dec 9999 fl) as [Hz|Hz]; [|exact Hz].
      assert (Hq : inject_Z 10000 <= inject_Z fl) by (apply Z_to_Q_le; lia).
      change (inject_Z 10000) with 10000 in Hq. lra. }
    destruct (negb (Qle_bool (n - inject_Z fl) (1 # 2))); [lia|].
    destruct (Z.even fl); lia. }
  assert (Hq0 : inject_Z 0 <= inject_Z r) by (apply Z_to_Q_le; lia).
  assert (Hq1 : inject_Z r <= inject_Z 10000) by (apply Z_to_Q_le; lia).
  change (inject_Z 0) with 0 in Hq0. change (inject_Z 10000) with 10000 in Hq1.
  unfold Qdiv. change (/ 100) with (1 # 100). lra.
Qed.

End ScoreFacts.

Module RelevanceClaims.

Import SmartFilter ScoreFacts Samples.
Open Scope Q_scope.

(** C1: for a record that [is_game_related] flags, [calculate_relevance_score]
    returns 0 and [should_include_for_ai] returns not-included with
    reported score 0, whatever the threshold. *)
Theorem game_suppression (e : env) (a : article) (threshold : Q) :
  is_game_related (get (title a) EmptyString) (get (snippet a) EmptyString) = true ->
  calculate_relevance_score e a = 0 /\
  fst (should_include_for_ai e a threshold) = false /\
  score (snd (should_include_for_ai e a threshold)) = 0.
Proof.
  intro H. unfold calculate_relevance_score, should_include_for_ai.
  rewrite H. auto.
Qed.

Lemma game_suppression_witness :
  is_game_related (get (title game_article) EmptyString)
                  (get (snippet game_article) EmptyString) = true /\
  calculate_relevance_score sample_env game_article = 0 /\
  fst (should_include_for_ai sample_env game_article 95) = false /\
  score (snd (should_include_for_ai sample_env game_article 95)) = 0.
Proof.
  split; [vm_compute; reflexivity|].
  apply (game_suppression sample_env game_article 95). vm_compute. reflexivity.
Defined.

(** C5: the relevance score of every record, and the score that
    [should_include_for_ai] reports, lie in [0, 100]; the weighted sum
    keyword*0.4 + source*0.3 + freshness*0.2 + bonus*0.1 itself lies in
    [0, 93], so clamping it at 100 keeps it unchanged. *)
Theorem score_bounds (e : env) (a : article) (threshold : Q) :
  let t := get (title a) EmptyString in
  let s := get (snippet a) EmptyString in
  0 <= calculate_relevance_score e a <= 100 /\
  0 <= score (snd (should_include_for_ai e a threshold)) <= 100 /\
  0 <= weighted_total (calculate_keyword_density_score t s)
         (calculate_source_credibility (get (link a) EmptyString))
         (calculate_freshness_score e (published a))
         (calculate_competitor_bonus t s) <= 93.
Proof.
  intros t s.
  pose proof (keyword_density_bounds t s) as Hk.
  pose proof (source_ge_40 (get (link a) EmptyString)) as Hs.
  pose proof (freshness_ge_20 e (published a)) as Hf.
  pose proof (bonus_bounds t s) as Hb.
  assert (Hw : 0 <= weighted_total (calculate_keyword_density_score t s)
                 (calculate_source_credibility (get (link a) EmptyString))
                 (calculate_freshness_score e (published a))
                 (calculate_competitor_bonus t s) <= 93)
    by (unfold weighted_total; lra).
  assert (Hm : 0 <= py_min (weighted_total (calculate_keyword_density_score t s)
                 (calculate_source_credibility (get (link a) EmptyString))
                 (calculate_freshness_score e (published a))
                 (calculate_competitor_bonus t s)) 100 <= 100).
  { split; [apply py_min_ge; [lra | discriminate] | apply py_min_le_r]. }
  split; [|split; [|exact Hw]].
  - unfold calculate_relevance_score. fold t s.
    destruct (is_game_related t s); [split; discriminate | exact Hm].
  - unfold should_include_for_ai. fold t s.
    destruct (is_game_related t s); [split; discriminate|].
    destruct (Qle_bool _ _); simpl; apply round2_bounds; exact Hm.
Qed.

Lemma relevance_nongame (e : env) (a : article) :
  let t := get (title a) EmptyString in
  let s := get (snippet a) EmptyString in
  is_game_related t s = false ->
  calculate_relevance_score e a =
  py_min (weighted_total (calculate_keyword_density_score t s)
            (calculate_source_credibility (get (link a) EmptyString))
            (calculate_freshness_score e (published a))
            (calculate_competitor_bonus t s)) 100.
Proof. intros t s H. unfold calculate_relevance_score. fold t s. rewrite H. reflexivity. Qed.

(** The decision of [should_include_for_ai] on a record that is not
    game-related: the total is compared with [adjusted_threshold]. *)
Lemma inclusion_rule (e : env) (a : article) (threshold : Q) :
  let t := get (title a) EmptyString in
  let s := get (snippet a) EmptyString in
  is_game_related t s = false ->
  fst (should_include_for_ai e a threshold) =
  Qle_bool (adjusted_threshold t threshold) (calculate_relevance_score e a).
Proof.
  intros t s H. rewrite (relevance_nongame e a H).
  unfold should_include_for_ai. fold t s. rewrite H.
  destruct (Qle_bool _ _); reflexivity.
Qed.




(** C2 (code bug): the title test [any(kw in title.lower() for kw in
    ["kt", ...])] also fires on "skt", so an SKT-only title is judged
    against the competitor threshold 20 instead of the caller's 30, and a
    record scoring below 30 is admitted. *)
Theorem own_brand_title_lowered_threshold :
  adjusted_threshold (get (title skt_community_article) EmptyString) 30 = 20 /\
  calculate_relevance_score sample_env skt_community_article < 30 /\
  fst (should_include_for_ai sample_env skt_community_article 30) = true.
Proof. repeat split; vm_compute; reflexivity. Qed.

(** C7 (code bug): [has_kt] is ["kt" in combined_text], which holds for
    every text containing "skt": an SKT-only text with no competitor brand
    receives bonus 20 instead of 0. *)
Theorem own_brand_only_bonus :
  py_in "kt" (lower ("SKT 로밍" ++ " ")) = true /\
  calculate_competitor_bonus "SKT 로밍" EmptyString = 20.
Proof. split; vm_compute; reflexivity. Qed.

Lemma py_in_char_digits (x : ascii) (p : string) :
  is_ascii_digit x = false -> all_digits p = true -> py_in (String x EmptyString) p = false.
Proof.
  intros Hx. induction p as [|y p IH]; simpl; intro Hp; [reflexivity|].
  apply andb_true_iff in Hp. destruct Hp as [Hy Hp].
  rewrite (IH Hp), orb_false_r, andb_true_r.
  destruct (Ascii.eqb x y) eqn:E; [|reflexivity].
  apply Ascii.eqb_eq in E. subst. congruence.
Qed.

Lemma strptime_naive (p : string) (d : datetime) :
  strptime_Ymd p = Ok d -> dt_offset d = None.
Proof.
  unfold strptime_Ymd, mk_datetime.
  destruct (num_at p 0 4), (num_at p 4 2), (num_at p 6 2); try discriminate.
  destruct (_ && _); [|discriminate].
  intro H. inversion H. reflexivity.
Qed.

(** Every string of eight ASCII digits takes the [strptime] branch, whose
    naive result cannot be subtracted from the aware [now]: the TypeError
    is caught and the score is 50. *)
Lemma compact_dates_neutral (e : env) (p : string) :
  py_len p = 8%nat -> py_isdigit p = true -> calculate_freshness_score e (Some p) = 50.
Proof.
  intros Hl Hd. unfold calculate_freshness_score.
  destruct (String.eqb p EmptyString); [reflexivity|].
  assert (Ha : all_digits p = true)
    by (unfold py_isdigit in Hd; apply andb_true_iff in Hd; tauto).
  unfold freshness_try, bind.
  rewrite (py_in_char_digits "T"%char p eq_refl Ha), (py_in_char_digits "+"%char p eq_refl Ha).
  rewrite Hl, Hd. cbn [orb andb Nat.eqb].
  destruct (strptime_Ymd p) as [d|x] eqn:Hs; [|reflexivity].
  apply strptime_naive in Hs. unfold dt_sub. simpl. rewrite Hs. reflexivity.
Qed.

(** C8 (code bug): "20260119" is parsed by [strptime] into a naive
    datetime, and yet the freshness score is the neutral 50 for every
    environment (clock and parsers), not one of the five bucket scores. *)
Theorem compact_date_not_bucketed (e : env) :
  (exists d, strptime_Ymd "20260119" = Ok d /\ dt_offset d = None) /\
  calculate_freshness_score e (Some "20260119") = 50.
Proof.
  split.
  - eexists. split; reflexivity.
  - apply compact_dates_neutral; reflexivity.
Qed.

End RelevanceClaims.

Module CollectorClaims.

Import Samples.

Lemma lower_app (x y : string) : lower (x ++ y) = lower x ++ lower y.
Proof. induction x as [|c x IH]; simpl; [reflexivity | rewrite IH; reflexivity]. Qed.

Lemma lower_combined (t s : string) : lower (t ++ " " ++ s) = lower t ++ " " ++ lower s.
Proof. rewrite lower_app, lower_app. reflexivity. Qed.

Lemma existsb_false_iff {A : Type} (f : A -> bool) (l : list A) :
  existsb f l = false -> ~ (exists x, In x l /\ f x = true).
Proof. intros H Hx. apply existsb_exists in Hx. congruence. Qed.

(** C9: [validate_article] returns its input unchanged or [None]; it
    returns [None] exactly when the link contains a blacklist entry, or
    the lower-cased title + " " + snippet contains a (lower-cased) excluded
    keyword, or the lower-cased link does; missing fields are read as the
    empty string, and the function is total. *)
Theorem validate_article_spec (a : article) :
  let lk := get (link a) EmptyString in
  let t := get (title a) EmptyString in
  let s := get (snippet a) EmptyString in
  (validate_article a = Some a \/ validate_article a = None) /\
  (validate_article a = None <->
     (exists blocked, In blocked BLACKLIST_DOMAINS /\ py_in blocked lk = true) \/
     (exists bad_word, In bad_word EXCLUDED_KEYWORDS /\
                       py_in (lower bad_word) (lower (t ++ " " ++ s)) = true) \/
     (exists bad_word, In bad_word EXCLUDED_KEYWORDS /\
                       py_in (lower bad_word) (lower lk) = true)).
Proof.
  cbv zeta. rewrite lower_combined.
  unfold validate_article. cbv zeta.
  destruct (existsb (fun blocked => py_in blocked (get (link a) EmptyString))
              BLACKLIST_DOMAINS) eqn:E1.
  { split; [right; reflexivity|].
    split; [intros _; left; apply existsb_exists; exact E1 | reflexivity]. }
  destruct (existsb (fun bad_word => py_in (lower bad_word)
              (lower (get (title a) EmptyString) ++ " " ++ lower (get (snippet a) EmptyString)))
              EXCLUDED_KEYWORDS) eqn:E2.
  { split; [right; reflexivity|].
    split; [intros _; right; left; apply existsb_exists; exact E2 | reflexivity]. }
  destruct (existsb (fun bad_word => py_in (lower bad_word) (lower (get (link a) EmptyString)))
              EXCLUDED_KEYWORDS) eqn:E3.
  { split; [right; reflexivity|].
    split; [intros _; right; right; apply existsb_exists; exact E3 | reflexivity]. }
  split; [left; reflexivity|].
  split; [discriminate|].
  intros [H|[H|H]]; apply existsb_exists in H; congruence.
Qed.

Lemma first_category_some (order : list string) (combined c : string) :
  first_category order combined = Some c ->
  exists pre post, order = (pre ++ c :: post)%list /\ category_matches c combined = true /\
                   forall x, In x pre -> category_matches x combined = false.
Proof.
  induction order as [|x order IH]; simpl; [discriminate|].
  destruct (category_matches x combined) eqn:E.
  - intro H. inversion H; subst. exists [], order. split; [reflexivity|].
    split; [exact E | intros y []].
  - intro H. destruct (IH H) as (pre & post & -> & Hm & Hp).
    exists (x :: pre), post. split; [reflexivity|]. split; [exact Hm|].
    intros y [<-|Hy]; [exact E | exact (Hp y Hy)].
Qed.

Lemma first_category_none (order : list string) (combined : string) :
  first_category order combined = None ->
  forall x, In x order -> category_matches x combined = false.
Proof.
  induction order as [|y order IH]; simpl; [intros _ x []|].
  destruct (category_matches y combined) eqn:E; [discriminate|].
  intros H x [<-|Hx]; [exact E | exact (IH H x Hx)].
Qed.

Lemma global_test (v : option string) :
  match v with Some v => String.eqb v "global" | None => false end = true <->
  v = Some "global".
Proof.
  destruct v as [v|]; [|split; discriminate].
  rewrite String.eqb_eq. split; [intros ->; reflexivity | intro H; inversion H; reflexivity].
Qed.

(** C6: [classify_article] returns one of the seven categories; a record
    of type "global" gets "global_trend" whatever its text; any other
    record gets the first category of the order competitors, voc_roaming,
    esim_products, voc_esim, market_culture whose keyword set has a
    (lower-cased) keyword inside the lower-cased title + " " + snippet,
    and "other" when none has. *)
Theorem classify_article_spec (a : article) :
  let combined := lower (get (title a) EmptyString ++ " " ++ get (snippet a) EmptyString) in
  let order := ["competitors"; "voc_roaming"; "esim_products"; "voc_esim"; "market_culture"] in
  In (classify_article a)
     ["market_culture"; "global_trend"; "competitors"; "esim_products";
      "voc_roaming"; "voc_esim"; "other"] /\
  (type a = Some "global" -> classify_article a = "global_trend") /\
  (type a <> Some "global" ->
     (classify_article a = "other" /\
      forall c, In c order -> category_matches c combined = false) \/
     (exists pre post, order = (pre ++ classify_article a :: post)%list /\
        category_matches (classify_article a) combined = true /\
        forall c, In c pre -> category_matches c combined = false)).
Proof.
  cbv zeta. rewrite lower_combined.
  unfold classify_article. cbv zeta.
  destruct (match type a with Some v => String.eqb v "global" | None => false end) eqn:Eg.
  - apply global_test in Eg.
    split; [simpl; tauto|]. split; [reflexivity | intro H; contradiction].
  - assert (Hng : type a <> Some "global").
    { intro H. apply global_test in H. congruence. }
    destruct (first_category priority_order
                (lower (get (title a) EmptyString) ++ " " ++ lower (get (snippet a) EmptyString)))
      as [c|] eqn:Ef.
    + pose proof (first_category_some _ _ _ Ef) as (pre & post & Ho & Hm & Hp).
      split.
      * assert (Hin : In c priority_order) by (rewrite Ho; apply in_elt).
        simpl in Hin. simpl. tauto.
      * split; [intro H; contradiction|]. intros _. right.
        exists pre, post. auto.
    + split; [simpl; tauto|]. split; [intro H; contradiction|]. intros _. left.
      split; [reflexivity | exact (first_category_none _ _ Ef)].
Qed.

(** C3 (counterexample): deduplicating twice is not deduplicating once.
    The titles KT &quot;로밍&quot; ... and KT "로밍" ... have different
    comparison keys, so both survive the first pass; their displayed titles
    are then equal and the second pass drops the second record. *)
Lemma dedup_twice_counterexample :
  bind (deduplicate [entity_title_article; quoted_title_article]) deduplicate <>
  deduplicate [entity_title_article; quoted_title_article].
Proof. vm_compute. discriminate. Qed.

Lemma sanitized_record (a : article) (t s l : string) :
  title a = Some t -> snippet a = Some s -> link a = Some l ->
  sanitize t = t -> sanitize s = s ->
  {| title := Some (sanitize t); snippet := Some (sanitize s); link := Some l;
     source := source a; published := published a; type := type a |} = a.
Proof. destruct a; simpl; intros -> -> -> -> ->. reflexivity. Qed.

Lemma dedup_go_clean_ok (xs : list article) :
  Forall display_clean xs ->
  forall seen_titles seen_links,
  exists ys, dedup_go seen_titles seen_links xs = Ok ys /\ Forall display_clean ys.
Proof.
  induction xs as [|a rest IH]; intros Hc st sl; [exists []; split; [reflexivity | constructor]|].
  inversion Hc as [|? ? Ha Hr]; subst.
  destruct Ha as (t & s & l & Ht & Hs & Hl & Hst & Hss).
  simpl. rewrite Ht. simpl.
  destruct (mem (clean_title t) st); [apply IH; exact Hr|].
  rewrite Hl. simpl.
  destruct (mem l sl); [apply IH; exact Hr|].
  rewrite Hs. simpl.
  destruct (IH Hr (clean_title t :: st) (l :: sl)) as [ys [Hys Hcl]].
  rewrite Hys. simpl. rewrite (sanitized_record a t s l Ht Hs Hl Hst Hss).
  eexists. split; [reflexivity|].
  constructor; [exists t, s, l; auto | exact Hcl].
Qed.

Lemma mem_cons (x y : string) (xs : list string) :
  mem x (y :: xs) = String.eqb x y || mem x xs.
Proof. reflexivity. Qed.

(** The second pass keeps every survivor of the first: its seen-sets are
    always contained in those of the first pass at the same record. *)
Lemma dedup_go_second_pass (xs : list article) :
  Forall display_clean xs ->
  forall st1 sl1 ys st2 sl2,
  dedup_go st1 sl1 xs = Ok ys ->
  (forall x, mem x st2 = true -> mem x st1 = true) ->
  (forall x, mem x sl2 = true -> mem x sl1 = true) ->
  dedup_go st2 sl2 ys = Ok ys.
Proof.
  induction xs as [|a rest IH]; intros Hc st1 sl1 ys st2 sl2 Hgo Ht2 Hl2.
  - simpl in Hgo. inversion Hgo. reflexivity.
  - inversion Hc as [|? ? Ha Hr]; subst.
    destruct Ha as (t & s & l & Ht & Hs & Hl & Hst & Hss).
    simpl in Hgo. rewrite Ht in Hgo. simpl in Hgo.
    destruct (mem (clean_title t) st1) eqn:Em1; [exact (IH Hr _ _ _ _ _ Hgo Ht2 Hl2)|].
    rewrite Hl in Hgo. simpl in Hgo.
    destruct (mem l sl1) eqn:Em2; [exact (IH Hr _ _ _ _ _ Hgo Ht2 Hl2)|].
    rewrite Hs in Hgo. simpl in Hgo.
    destruct (dedup_go (clean_title t :: st1) (l :: sl1) rest) as [ys'|x] eqn:Hrest;
      [|discriminate].
    simpl in Hgo. inversion Hgo as [Hys]. clear Hgo.
    rewrite (sanitized_record a t s l Ht Hs Hl Hst Hss).
    simpl. rewrite Ht. simpl.
    destruct (mem (clean_title t) st2) eqn:Em3; [rewrite (Ht2 _ Em3) in Em1; discriminate|].
    rewrite Hl. simpl.
    destruct (mem l sl2) eqn:Em4; [rewrite (Hl2 _ Em4) in Em2; discriminate|].
    rewrite Hs. simpl.
    rewrite (IH Hr _ _ _ (clean_title t :: st2) (l :: sl2) Hrest).
    + simpl. rewrite (sanitized_record a t s l Ht Hs Hl Hst Hss). reflexivity.
    + intros x Hx. rewrite mem_cons in *. apply orb_true_iff in Hx.
      destruct Hx as [Hx|Hx]; [rewrite Hx; reflexivity | rewrite (Ht2 _ Hx), orb_true_r; reflexivity].
    + intros x Hx. rewrite mem_cons in *. apply orb_true_iff in Hx.
      destruct Hx as [Hx|Hx]; [rewrite Hx; reflexivity | rewrite (Hl2 _ Hx), orb_true_r; reflexivity].
Qed.

(** C3 (amended): on a sequence whose records all carry a title, a
    snippet and a link, and whose titles and snippets contain nothing the
    display clean-up rewrites (no <b>, </b>, &quot;, &amp;, &lt;, &gt;),
    [deduplicate] succeeds and running it a second time returns its
    result unchanged. *)
Theorem dedup_idempotent_on_clean (xs : list article) :
  Forall display_clean xs ->
  (exists ys, deduplicate xs = Ok ys) /\
  bind (deduplicate xs) deduplicate = deduplicate xs.
Proof.
  intro Hc. destruct (dedup_go_clean_ok xs Hc [] []) as [ys [Hys _]].
  assert (H2 : deduplicate ys = Ok ys).
  { unfold deduplicate.
    apply (dedup_go_second_pass xs Hc [] [] ys [] [] Hys); intros x Hx; exact Hx. }
  assert (Hd : deduplicate xs = Ok ys) by exact Hys.
  rewrite Hd. cbn [bind]. split; [exists ys; reflexivity | exact H2].
Qed.

Lemma dedup_idempotent_on_clean_witness :
  Forall display_clean [esim_article; game_article] /\
  (exists ys, deduplicate [esim_article; game_article] = Ok ys) /\
  bind (deduplicate [esim_article; game_article]) deduplicate =
  deduplicate [esim_article; game_article].
Proof.
  assert (Hc : Forall display_clean [esim_article; game_article]).
  { repeat constructor; do 3 eexists; repeat split; reflexivity. }
  split; [exact Hc | exact (dedup_idempotent_on_clean _ Hc)].
Defined.

(** C4 (counterexample): two records with the empty link and different
    titles: the second is dropped, the empty link acting as a key. *)
Lemma empty_link_counterexample :
  clean_title (get (title empty_link_first) EmptyString) <>
  clean_title (get (title empty_link_second) EmptyString) /\
  deduplicate [empty_link_first; empty_link_second] = Ok [empty_link_first].
Proof. split; [vm_compute; discriminate | vm_compute; reflexivity]. Qed.

Lemma mem_true_In (x : string) (xs : list string) : mem x xs = true <-> In x xs.
Proof.
  unfold mem. rewrite existsb_exists. split.
  - intros (y & Hy & E). apply String.eqb_eq in E. subst. exact Hy.
  - intro H. exists x. split; [exact H | apply String.eqb_refl].
Qed.

(** Running the loop over a prefix that succeeds leaves seen-sets that
    extend the initial ones and contain the links of its survivors; the
    rest of the batch is then processed from those seen-sets. *)
Lemma dedup_go_prefix (pre : list article) :
  forall st sl ys, dedup_go st sl pre = Ok ys ->
  exists st' sl',
    (forall l, In l sl -> In l sl') /\
    (forall y l, In y ys -> link y = Some l -> In l sl') /\
    forall xs, dedup_go st sl (pre ++ xs)%list = bind (dedup_go st' sl' xs) (fun zs => Ok (ys ++ zs)%list).
Proof.
  induction pre as [|a rest IH]; intros st sl ys H.
  - injection H as <-. exists st, sl. split; [intros l Hl; exact Hl|].
    split; [intros y l []|].
    intro xs. simpl. destruct (dedup_go st sl xs); reflexivity.
  - cbn [dedup_go app] in *.
    destruct (title a) as [t|]; [|discriminate]. cbn [req bind] in *.
    destruct (mem (clean_title t) st) eqn:Et; [exact (IH _ _ _ H)|].
    destruct (link a) as [l|] eqn:El; [|discriminate]. cbn [req bind] in *.
    destruct (mem l sl) eqn:El2; [exact (IH _ _ _ H)|].
    destruct (snippet a) as [sn|]; [|discriminate]. cbn [req bind] in *.
    destruct (dedup_go (clean_title t :: st) (l :: sl) rest) as [ys'|x] eqn:Hr;
      [|discriminate].
    cbn [bind] in H. injection H as <-.
    destruct (IH _ _ _ Hr) as (st' & sl' & Hsub & Hin & Hxs).
    exists st', sl'. split; [intros l' Hl'; apply Hsub; right; exact Hl'|]. split.
    + intros y l' [<-|Hy] Hl'.
      * cbn [link] in Hl'. injection Hl' as <-.
        apply Hsub. left. reflexivity.
      * exact (Hin y l' Hy Hl').
    + intro xs. rewrite Hxs. destruct (dedup_go st' sl' xs); reflexivity.
Qed.

(** With the empty link among the seen links, a later record that has a
    title and the empty link is skipped, wherever it stands. *)
Lemma dedup_go_skip_empty_link (b : article) (tb : string) (rest : list article) :
  title b = Some tb -> link b = Some EmptyString ->
  forall mid st sl, In EmptyString sl ->
  dedup_go st sl (mid ++ b :: rest)%list = dedup_go st sl (mid ++ rest)%list.
Proof.
  intros Htb Hlb. induction mid as [|a mid IH]; intros st sl Hin.
  - cbn [app dedup_go]. rewrite Htb. cbn [req bind].
    destruct (mem (clean_title tb) st); [reflexivity|].
    rewrite Hlb. cbn [req bind].
    apply mem_true_In in Hin. rewrite Hin. reflexivity.
  - cbn [app dedup_go].
    destruct (title a) as [t|]; [|reflexivity]. cbn [req bind].
    destruct (mem (clean_title t) st); [apply IH; exact Hin|].
    destruct (link a) as [l|]; [|reflexivity]. cbn [req bind].
    destruct (mem l sl); [apply IH; exact Hin|].
    destruct (snippet a) as [sn|]; [|reflexivity]. cbn [req bind].
    rewrite (IH (clean_title t :: st) (l :: sl)); [reflexivity | right; exact Hin].
Qed.

(** C4 (amended): [deduplicate] uses the link as given, the empty string
    included, as a key: once a record with the empty link has survived
    (it is in the result on a prefix of the batch), every later record that
    has a title and the empty link is dropped, whatever its title and
    whatever records lie between. *)
Theorem empty_link_is_a_key (pre mid rest ys : list article) (y b : article) (tb : string) :
  deduplicate pre = Ok ys -> In y ys -> link y = Some EmptyString ->
  title b = Some tb -> link b = Some EmptyString ->
  deduplicate (pre ++ mid ++ b :: rest)%list = deduplicate (pre ++ mid ++ rest)%list.
Proof.
  intros Hpre Hy Hly Htb Hlb. unfold deduplicate in *.
  destruct (dedup_go_prefix pre [] [] ys Hpre) as (st' & sl' & _ & Hin & Hxs).
  rewrite !Hxs.
  rewrite (dedup_go_skip_empty_link b tb rest Htb Hlb mid st' sl' (Hin y _ Hy Hly)).
  reflexivity.
Qed.

Lemma empty_link_is_a_key_witness :
  deduplicate [esim_article; empty_link_first] = Ok [esim_article; empty_link_first] /\
  deduplicate ([esim_article; empty_link_first] ++ [game_article] ++ [empty_link_second])%list =
  deduplicate ([esim_article; empty_link_first] ++ [game_article] ++ [])%list.
Proof.
  assert (Hp : deduplicate [esim_article; empty_link_first] = Ok [esim_article; empty_link_first])
    by (vm_compute; reflexivity).
  split; [exact Hp|].
  apply (empty_link_is_a_key [esim_article; empty_link_first] [game_article] []
           [esim_article; empty_link_first] empty_link_first empty_link_second
           "로밍 요금제 인하" Hp); [right; left; reflexivity | reflexivity | reflexivity | reflexivity].
Defined.

End CollectorClaims.

Module FilterExtras.

Import SmartFilter ScoreFacts RelevanceClaims Samples.
Open Scope Q_scope.

Lemma filtered_flag (e : env) (a : article) (threshold : Q) :
  filtered (snd (should_include_for_ai e a threshold)) = negb (fst (should_include_for_ai e a threshold)).
Proof.
  unfold should_include_for_ai.
  destruct (is_game_related _ _); [reflexivity|].
  destruct (Qle_bool _ _); reflexivity.
Qed.

Lemma filter_articles_cons (e : env) (a : article) (rest : list article) (threshold : Q) :
  filter_articles_for_ai e (a :: rest) threshold =
  (if fst (should_include_for_ai e a threshold) then a :: fst (filter_articles_for_ai e rest threshold)
   else fst (filter_articles_for_ai e rest threshold),
   {| entry_info := snd (should_include_for_ai e a threshold);
      entry_title := take_cp 60 (get (title a) EmptyString);
      entry_link := get (link a) EmptyString;
      entry_source := get (source a) EmptyString |} :: snd (filter_articles_for_ai e rest threshold)).
Proof.
  simpl. destruct (should_include_for_ai e a threshold) as [b i].
  destruct (filter_articles_for_ai e rest threshold) as [f fi]. reflexivity.
Qed.

(** [filter_articles_for_ai] returns the articles that [should_include_for_ai]
    admits, in their input order, and one info entry per input article
    whose [filtered] flag is the negation of that decision and whose link
    and source are the article's (empty when missing). *)
Theorem filter_articles_partition (e : env) (articles : list article) (threshold : Q) :
  let r := filter_articles_for_ai e articles threshold in
  fst r = filter (fun a => fst (should_include_for_ai e a threshold)) articles /\
  map (fun en => filtered (entry_info en)) (snd r) =
  map (fun a => negb (fst (should_include_for_ai e a threshold))) articles /\
  map entry_link (snd r) = map (fun a => get (link a) EmptyString) articles /\
  map entry_source (snd r) = map (fun a => get (source a) EmptyString) articles.
Proof.
  cbv zeta. induction articles as [|a rest IH]; [repeat split|].
  rewrite filter_articles_cons. simpl. destruct IH as (H1 & H2 & H3 & H4).
  rewrite H1, H2, H3, H4, filtered_flag.
  destruct (fst (should_include_for_ai e a threshold)); repeat split.
Qed.

(** The debug summary is consistent: the number of info entries not flagged
    [filtered] is the number of returned articles, and there is one entry per
    input article. *)
Theorem filter_summary_count (e : env) (articles : list article) (threshold : Q) :
  let r := filter_articles_for_ai e articles threshold in
  length (filter (fun en => negb (filtered (entry_info en))) (snd r)) = length (fst r) /\
  length (snd r) = length articles.
Proof.
  cbv zeta. induction articles as [|a rest IH]; [split; reflexivity|].
  rewrite filter_articles_cons. simpl. rewrite filtered_flag.
  destruct IH as [IH1 IH2].
  destruct (fst (should_include_for_ai e a threshold)); simpl; split; congruence.
Qed.

Lemma include_mono (e : env) (a : article) (thr1 thr2 : Q) :
  thr1 <= thr2 ->
  fst (should_include_for_ai e a thr2) = true -> fst (should_include_for_ai e a thr1) = true.
Proof.
  intros Hle. unfold should_include_for_ai.
  destruct (is_game_related _ _); [discriminate|].
  unfold adjusted_threshold.
  destruct (is_competitor _); [tauto|].
  destruct (Qle_bool thr2 _) eqn:E2; [|discriminate]. intros _.
  apply Qle_bool_iff in E2. simpl.
  destruct (Qle_bool thr1 _) eqn:E1; [reflexivity|].
  exfalso. apply Bool.not_true_iff_false in E1. apply E1. apply Qle_bool_iff.
  eapply Qle_trans; [exact Hle | exact E2].
Qed.

(** Raising the threshold only removes articles: the result at the higher
    threshold is the sub-list of the result at the lower one that the
    higher threshold admits. *)
Theorem filter_threshold_monotone (e : env) (articles : list article) (thr1 thr2 : Q) :
  thr1 <= thr2 ->
  fst (filter_articles_for_ai e articles thr2) =
  filter (fun a => fst (should_include_for_ai e a thr2)) (fst (filter_articles_for_ai e articles thr1)).
Proof.
  intro Hle.
  destruct (filter_articles_partition e articles thr1) as [H1 _].
  destruct (filter_articles_partition e articles thr2) as [H2 _].
  cbv zeta in H1, H2. rewrite H1, H2. clear H1 H2.
  induction articles as [|a rest IH]; [reflexivity|]. simpl.
  destruct (fst (should_include_for_ai e a thr2)) eqn:E2.
  - rewrite (include_mono e a thr1 thr2 Hle E2). simpl. rewrite E2, IH. reflexivity.
  - destruct (fst (should_include_for_ai e a thr1)); simpl; [rewrite E2|]; exact IH.
Qed.

Lemma filter_threshold_monotone_witness :
  16 <= 30 /\
  fst (filter_articles_for_ai sample_env [esim_article; game_article; skt_community_article] 30) =
  filter (fun a => fst (should_include_for_ai sample_env a 30))
    (fst (filter_articles_for_ai sample_env [esim_article; game_article; skt_community_article] 16)).
Proof.
  assert (H : 16 <= 30) by (apply Qle_bool_iff; reflexivity).
  split; [exact H | exact (filter_threshold_monotone _ _ _ _ H)].
Defined.

(** Every article [filter_articles_for_ai] returns is one of its inputs, is
    not game-related, and scores at least its adjusted threshold (20 for a
    title with "kt", "lgu+" or "lg유플러스", the caller's threshold otherwise). *)
Theorem filter_retained (e : env) (articles : list article) (threshold : Q) (a : article) :
  In a (fst (filter_articles_for_ai e articles threshold)) ->
  In a articles /\
  is_game_related (get (title a) EmptyString) (get (snippet a) EmptyString) = false /\
  adjusted_threshold (get (title a) EmptyString) threshold <= calculate_relevance_score e a.
Proof.
  destruct (filter_articles_partition e articles threshold) as [H _]. cbv zeta in H.
  rewrite H, filter_In. intros [Hin Hinc]. split; [exact Hin|].
  destruct (is_game_related (get (title a) EmptyString) (get (snippet a) EmptyString)) eqn:Eg.
  - unfold should_include_for_ai in Hinc. rewrite Eg in Hinc. discriminate.
  - split; [reflexivity|]. rewrite (inclusion_rule e a threshold Eg) in Hinc.
    apply Qle_bool_iff. exact Hinc.
Qed.

Lemma filter_retained_witness :
  In esim_article (fst (filter_articles_for_ai sample_env [game_article; esim_article] 30)) /\
  is_game_related (get (title esim_article) EmptyString) (get (snippet esim_article) EmptyString) = false.
Proof.
  assert (H : In esim_article (fst (filter_articles_for_ai sample_env [game_article; esim_article] 30)))
    by (change (fst (filter_articles_for_ai sample_env [game_article; esim_article] 30))
          with [esim_article]; left; reflexivity).
  split; [exact H | apply (filter_retained sample_env _ 30 esim_article H)].
Defined.

End FilterExtras.

Module ContextExtras.

Import SmartFilter Samples.

(** [contextual_keyword_check] rejects only the keyword "롤", and only when
    the lower-cased text has one of its game words and none of the telecom
    context words. *)
Theorem contextual_check_rejections (title snippet keyword : string) :
  let combined := lower (title ++ " " ++ snippet) in
  contextual_keyword_check title snippet keyword = false ->
  keyword = "롤" /\
  existsb (fun game_kw => py_in game_kw combined) roll_context_keywords = true /\
  existsb (fun telecom_kw => py_in telecom_kw combined) TELECOM_CONTEXT = false.
Proof.
  cbv zeta. unfold contextual_keyword_check. cbv zeta.
  destruct (String.eqb keyword "롤") eqn:Ek; [|discriminate].
  apply String.eqb_eq in Ek.
  destruct (existsb _ roll_context_keywords) eqn:Eg;
    destruct (existsb _ TELECOM_CONTEXT) eqn:Et; simpl; try discriminate.
  intros _. auto.
Qed.

Lemma contextual_check_rejections_witness :
  contextual_keyword_check "롤체 시즌 개막" EmptyString "롤" = false /\ "롤" = "롤".
Proof.
  assert (H : contextual_keyword_check "롤체 시즌 개막" EmptyString "롤" = false)
    by (vm_compute; reflexivity).
  split; [exact H | apply (contextual_check_rejections _ _ _ H)].
Defined.

(** When [contextual_keyword_check] rejects "롤" on a text naming 리그오브레전드
    or 롤드컵, [is_game_related] flags the same title and snippet. *)
Theorem contextual_check_agrees_with_game_filter (title snippet : string) :
  let combined := lower (title ++ " " ++ snippet) in
  contextual_keyword_check title snippet "롤" = false ->
  py_in "리그오브레전드" combined || py_in "롤드컵" combined = true ->
  is_game_related title snippet = true.
Proof.
  cbv zeta. intros Hc Hs.
  destruct (contextual_check_rejections title snippet "롤" Hc) as (_ & _ & Ht).
  unfold is_game_related. rewrite Ht.
  apply orb_true_iff in Hs. destruct Hs as [Hs|Hs].
  - cbn [strong_game_signals existsb]. change (lower "리그오브레전드") with "리그오브레전드".
    rewrite Hs. reflexivity.
  - cbn [strong_game_signals existsb]. change (lower "롤드컵") with "롤드컵".
    rewrite Hs. rewrite orb_true_r. reflexivity.
Qed.

Lemma contextual_check_agrees_with_game_filter_witness :
  contextual_keyword_check "롤드컵 결승" EmptyString "롤" = false /\
  is_game_related "롤드컵 결승" EmptyString = true.
Proof.
  assert (H1 : contextual_keyword_check "롤드컵 결승" EmptyString "롤" = false)
    by (vm_compute; reflexivity).
  assert (H2 : py_in "리그오브레전드" (lower ("롤드컵 결승" ++ " " ++ EmptyString)) ||
               py_in "롤드컵" (lower ("롤드컵 결승" ++ " " ++ EmptyString)) = true)
    by (vm_compute; reflexivity).
  split; [exact H1 | exact (contextual_check_agrees_with_game_filter _ _ H1 H2)].
Defined.

End ContextExtras.

Module ClassifierExtras.

Import DataClassifier Samples.

Lemma link_eqb_iff (a b : option string) : link_eqb a b = true <-> a = b.
Proof.
  destruct a as [x|], b as [y|]; simpl; try (split; congruence).
  rewrite String.eqb_eq. split; congruence.
Qed.

Lemma link_mem_iff (x : option string) (seen : list (option string)) :
  link_mem x seen = true <-> In x seen.
Proof.
  unfold link_mem. rewrite existsb_exists. split.
  - intros (y & Hy & E). apply link_eqb_iff in E. subst. exact Hy.
  - intro H. exists x. split; [exact H | apply link_eqb_iff; reflexivity].
Qed.

Lemma classify_item_codomain (item : article) :
  classify_item item = "news" \/ classify_item item = "community".
Proof.
  unfold classify_item. cbv zeta.
  repeat match goal with |- context [if ?b then _ else _] => destruct b end; auto.
Qed.

Lemma process_go_sound (items : list article) :
  forall seen n c, process_go seen items = (n, c) ->
  (forall y, In y (n ++ c) -> In y items /\ ~ In (link y) seen) /\
  NoDup (map link (n ++ c)) /\
  Forall (fun y => classify_item y = "news") n /\
  Forall (fun y => classify_item y = "community") c.
Proof.
  induction items as [|x rest IH]; intros seen n c H.
  - simpl in H. inversion H; subst.
    split; [intros y []|]. split; [constructor|]. split; constructor.
  - simpl in H. destruct (link_mem (link x) seen) eqn:Em.
    + destruct (IH seen n c H) as (H1 & H2 & H3 & H4).
      split; [|split; [exact H2 | split; [exact H3 | exact H4]]].
      intros y Hy. destruct (H1 y Hy) as [Ha Hb]. split; [right; exact Ha | exact Hb].
    + assert (Hx : ~ In (link x) seen) by (rewrite <- link_mem_iff; congruence).
      destruct (process_go (link x :: seen) rest) as [n0 c0] eqn:Hr.
      destruct (IH _ _ _ Hr) as (H1 & H2 & H3 & H4).
      assert (Hnot : ~ In (link x) (map link (n0 ++ c0))).
      { intro Hin. apply in_map_iff in Hin. destruct Hin as (y & Hy & Hin).
        destruct (H1 y Hin) as [_ Hn]. apply Hn. left. symmetry. exact Hy. }
      destruct (String.eqb (classify_item x) "news") eqn:Ec; injection H as <- <-.
      * apply String.eqb_eq in Ec. split; [|split; [|split]].
        -- intros y [<-|Hy]; [split; [left; reflexivity | exact Hx]|].
           destruct (H1 y Hy) as [Hi Hn]. split; [right; exact Hi|].
           intro Hs. apply Hn. right. exact Hs.
        -- simpl. constructor; [exact Hnot | exact H2].
        -- constructor; [exact Ec | exact H3].
        -- exact H4.
      * split; [|split; [|split]].
        -- intros y Hy. apply in_app_or in Hy. destruct Hy as [Hy|[<-|Hy]].
           ++ destruct (H1 y (in_or_app _ _ _ (or_introl Hy))) as [Hi Hn].
              split; [right; exact Hi | intro Hs; apply Hn; right; exact Hs].
           ++ split; [left; reflexivity | exact Hx].
           ++ destruct (H1 y (in_or_app _ _ _ (or_intror Hy))) as [Hi Hn].
              split; [right; exact Hi | intro Hs; apply Hn; right; exact Hs].
        -- rewrite map_app. simpl.
           apply (Permutation_NoDup (l := link x :: map link n0 ++ map link c0)).
           ++ apply Permutation_middle.
           ++ constructor; [rewrite <- map_app; exact Hnot | rewrite <- map_app; exact H2].
        -- exact H3.
        -- constructor; [|exact H4].
           destruct (classify_item_codomain x) as [E|E]; [rewrite E in Ec; discriminate | exact E].
Qed.

Lemma process_go_complete (items : list article) :
  forall seen n c, process_go seen items = (n, c) ->
  forall x, In x items -> In (link x) seen \/ exists y, In y (n ++ c) /\ link y = link x.
Proof.
  induction items as [|z rest IH]; intros seen n c H x Hx; [destruct Hx|].
  simpl in H. destruct (link_mem (link z) seen) eqn:Em.
  - destruct Hx as [<-|Hx]; [left; apply link_mem_iff; exact Em | exact (IH _ _ _ H x Hx)].
  - destruct (process_go (link z :: seen) rest) as [n0 c0] eqn:Hr.
    assert (Hsub : forall y, In y (n0 ++ c0) -> In y (n ++ c)).
    { destruct (String.eqb (classify_item z) "news"); inversion H; subst; intros y Hy.
      - right. exact Hy.
      - apply in_app_or in Hy. apply in_or_app. simpl. tauto. }
    assert (Hz : In z (n ++ c)).
    { destruct (String.eqb (classify_item z) "news"); inversion H; subst.
      - left. reflexivity.
      - apply in_or_app. right. left. reflexivity. }
    destruct Hx as [<-|Hx]; [right; exists z; auto|].
    destruct (IH _ _ _ Hr x Hx) as [[Hl|Hl]|(y & Hy & Hl)].
    + right. exists z. split; [exact Hz | exact Hl].
    + left. exact Hl.
    + right. exists y. split; [apply Hsub; exact Hy | exact Hl].
Qed.

(** [process_and_deduplicate] keeps one item per link value ([None] for a
    missing link counts as one value): the two lists hold only input items,
    their links are pairwise distinct, every input link is represented, and
    each item sits in the list named by [classify_item]. *)
Theorem process_and_deduplicate_partition (items : list article) :
  let r := process_and_deduplicate items in
  (forall y, In y (news r ++ community r) -> In y items) /\
  NoDup (map link (news r ++ community r)) /\
  (forall x, In x items -> exists y, In y (news r ++ community r) /\ link y = link x) /\
  Forall (fun y => classify_item y = "news") (news r) /\
  Forall (fun y => classify_item y = "community") (community r).
Proof.
  cbv zeta. unfold process_and_deduplicate.
  destruct (process_go [] items) as [n c] eqn:H. simpl.
  destruct (process_go_sound items [] n c H) as (H1 & H2 & H3 & H4).
  split; [intros y Hy; apply (H1 y Hy)|]. split; [exact H2|].
  split; [|split; [exact H3 | exact H4]].
  intros x Hx. destruct (process_go_complete items [] n c H x Hx) as [[]|Hy]. exact Hy.
Qed.

Lemma process_go_single (b : bool) (xs : list article) :
  forall seen,
  NoDup (map link xs) ->
  Forall (fun y => String.eqb (classify_item y) "news" = b) xs ->
  (forall y, In y xs -> ~ In (link y) seen) ->
  process_go seen xs = if b then (xs, []) else ([], xs).
Proof.
  induction xs as [|x xs IH]; intros seen Hnd Hc Hs; [destruct b; reflexivity|].
  simpl. simpl in Hnd. apply NoDup_cons_iff in Hnd as [Hx Hnd']. apply Forall_cons_iff in Hc as [Hcx Hc'].
  assert (Hm : link_mem (link x) seen = false).
  { destruct (link_mem (link x) seen) eqn:E; [|reflexivity].
    apply link_mem_iff in E. exfalso. exact (Hs x (or_introl eq_refl) E). }
  rewrite Hm.
  rewrite (IH (link x :: seen) Hnd' Hc').
  - rewrite Hcx. destruct b; reflexivity.
  - intros y Hy [Hl|Hl].
    + apply Hx. rewrite Hl. apply in_map. exact Hy.
    + exact (Hs y (or_intror Hy) Hl).
Qed.

(** Running [process_and_deduplicate] again on its news list, or on its
    community list, returns that list unchanged in the same bucket. *)
Theorem process_and_deduplicate_stable (items : list article) :
  let r := process_and_deduplicate items in
  process_and_deduplicate (news r) = {| news := news r; community := [] |} /\
  process_and_deduplicate (community r) = {| news := []; community := community r |}.
Proof.
  cbv zeta. destruct (process_and_deduplicate_partition items) as (_ & Hnd & _ & Hn & Hc).
  rewrite map_app in Hnd.
  split; unfold process_and_deduplicate at 1.
  - rewrite (process_go_single true (news (process_and_deduplicate items)) []).
    + reflexivity.
    + exact (NoDup_app_remove_r _ _ Hnd).
    + eapply Forall_impl; [|exact Hn]. intros y Hy. simpl in Hy. rewrite Hy. reflexivity.
    + intros y _ [].
  - rewrite (process_go_single false (community (process_and_deduplicate items)) []).
    + reflexivity.
    + exact (NoDup_app_remove_l _ _ Hnd).
    + eapply Forall_impl; [|exact Hc]. intros y Hy. simpl in Hy. rewrite Hy. reflexivity.
    + intros y _ [].
Qed.

End ClassifierExtras.

Module CredExtras.
Import SmartFilter DataClassifier.
Open Scope Q_scope.

Ltac domain_case d lk :=
  destruct (py_in d lk) eqn:?;
  [ cbn -[Qle]; rewrite ?orb_true_r; split; [intros _; reflexivity | intros _; discriminate] | ].

(** the links scoring at least 85 are those naming a news domain *)
Lemma news_domains_ge_85 (lk : string) :
  85 <= calculate_source_credibility lk <->
  existsb (fun domain => py_in domain lk) NEWS_DOMAINS = true.
Proof.
  unfold calculate_source_credibility, NEWS_DOMAINS.
  cbn -[py_in Qle credibility_at BLOG_PATTERNS CAFE_PATTERNS COMMUNITY_PATTERNS].
  domain_case "yna.co.kr" lk. domain_case "newsis.com" lk. domain_case "news1.kr" lk.
  domain_case "hankyung.com" lk. domain_case "mk.co.kr" lk. domain_case "mt.co.kr" lk.
  domain_case "zdnet.co.kr" lk. domain_case "bloter.net" lk. domain_case "etnews.com" lk.
  domain_case "news.naver.com" lk. domain_case "v.daum.net" lk.
  cbn [orb]. split; [|discriminate]. intro H. exfalso. revert H.
  destruct (existsb _ (BLOG_PATTERNS ++ CAFE_PATTERNS));
    [|destruct (existsb _ COMMUNITY_PATTERNS)];
    vm_compute; intro H; apply H; reflexivity.
Qed.

(** [SmartFilter.calculate_source_credibility] gives at least 85 exactly to
    links containing one of [DataClassifier.NEWS_DOMAINS]; every other link
    gets at most 60. *)
Theorem news_domains_high_credibility (lk : string) :
  (85 <= calculate_source_credibility lk <->
   existsb (fun domain => py_in domain lk) NEWS_DOMAINS = true) /\
  (existsb (fun domain => py_in domain lk) NEWS_DOMAINS = false ->
   calculate_source_credibility lk <= 60).
Proof.
  split; [apply news_domains_ge_85|].
  intro Hn. destruct (Qlt_le_dec (calculate_source_credibility lk) 85) as [Hlt|Hge].
  - destruct (ScoreFacts.source_codomain lk) as [H|[H|[H|[H|[H|H]]]]];
      rewrite H in *; try discriminate; exfalso; revert Hlt; vm_compute; intro X; discriminate X.
  - apply news_domains_ge_85 in Hge. congruence.
Qed.
End CredExtras.

Module DedupExtras.
Import Samples.

Lemma mem_In (x : string) (xs : list string) : mem x xs = true <-> In x xs.
Proof.
  unfold mem. rewrite existsb_exists. split.
  - intros (y & Hy & E). apply String.eqb_eq in E. subst. exact Hy.
  - intro H. exists x. split; [exact H | apply String.eqb_refl].
Qed.

Lemma dedup_go_links (xs : list article) :
  forall st sl ys, dedup_go st sl xs = Ok ys ->
  (forall y, In y ys -> exists l, link y = Some l /\ ~ In l sl) /\ NoDup (map link ys).
Proof.
  induction xs as [|a rest IH]; intros st sl ys H.
  - simpl in H. injection H as <-. split; [intros y []|constructor].
  - simpl in H. destruct (title a) as [t|]; simpl in H; [|discriminate].
    destruct (mem (clean_title t) st); [exact (IH _ _ _ H)|].
    destruct (link a) as [l|] eqn:Hl; simpl in H; [|discriminate].
    destruct (mem l sl) eqn:Em; [exact (IH _ _ _ H)|].
    destruct (snippet a) as [s|]; simpl in H; [|discriminate].
    destruct (dedup_go (clean_title t :: st) (l :: sl) rest) as [ys'|x] eqn:Hr;
      simpl in H; [|discriminate].
    injection H as <-.
    destruct (IH _ _ _ Hr) as [H1 H2].
    assert (Hnl : ~ In l sl) by (rewrite <- mem_In; congruence).
    split.
    + intros y [<-|Hy]; [exists l; split; [reflexivity | exact Hnl]|].
      destruct (H1 y Hy) as (l' & Hl' & Hn). exists l'. split; [exact Hl'|].
      intro Hin. apply Hn. right. exact Hin.
    + simpl. constructor; [|exact H2].
      intro Hin. apply in_map_iff in Hin. destruct Hin as (y & Hy & Hin).
      destruct (H1 y Hin) as (l' & Hl' & Hn). rewrite Hl' in Hy. injection Hy as ->.
      apply Hn. left. reflexivity.
Qed.

(** When [deduplicate] succeeds, the links of its result are present and
    pairwise distinct. *)
Theorem dedup_output_links (xs ys : list article) :
  deduplicate xs = Ok ys ->
  NoDup (map link ys) /\ Forall (fun y => link y <> None) ys.
Proof.
  intro H. destruct (dedup_go_links xs [] [] ys H) as [H1 H2].
  split; [exact H2|]. apply Forall_forall. intros y Hy.
  destruct (H1 y Hy) as (l & Hl & _). rewrite Hl. discriminate.
Qed.

Lemma dedup_output_links_witness :
  deduplicate [esim_article; game_article; esim_article] = Ok [esim_article; game_article] /\
  NoDup (map link [esim_article; game_article]).
Proof.
  assert (H : deduplicate [esim_article; game_article; esim_article] = Ok [esim_article; game_article])
    by (vm_compute; reflexivity).
  split; [exact H | apply (dedup_output_links _ _ H)].
Defined.




End DedupExtras.

Module TimeExtras.
Import CollectorLinks.
Open Scope Z_scope.

(** [check_time_validity] never raises: [None] is valid, and a datetime is
    valid exactly when it is less than 24 hours before now, a naive value
    being read as UTC (so every future time is valid). *)
Theorem check_time_validity_instant (now_utc : Z) (pub_date_obj : option datetime) :
  check_time_validity now_utc pub_date_obj =
  Ok (match pub_date_obj with
      | None => true
      | Some d =>
          now_utc - (dt_wall d - match dt_offset d with Some o => o | None => 0 end) <? DAY_US
      end).
Proof.
  destruct pub_date_obj as [d|]; [|reflexivity].
  unfold check_time_validity, datetime_now, dt_sub, DAY_US.
  destruct d as [w [o|]]; simpl; do 3 f_equal; lia.
Qed.

(** A naive datetime holding Korean (UTC+9) wall-clock time is read as UTC,
    so it passes the 24-hour check until 33 hours after the instant it
    denotes. *)
Theorem naive_kst_window (now_utc i : Z) :
  check_time_validity now_utc
    (Some {| dt_wall := i + 9 * 3600 * US_PER_SEC; dt_offset := None |}) = Ok true <->
  now_utc - 33 * 3600 * US_PER_SEC < i.
Proof.
  rewrite check_time_validity_instant. simpl. unfold DAY_US, US_PER_SEC.
  split; intro H.
  - injection H as H. apply Z.ltb_lt in H. lia.
  - f_equal. apply Z.ltb_lt. lia.
Qed.

End TimeExtras.

Module LinkExtras.
Import CollectorLinks Samples.

(** [clean_naver_link] returns unchanged every link without "/blog.naver.com/"
    and without "/cafe.naver.com/" (news links, m.blog.naver.com, other
    sites), whatever [urllib.parse] returns. *)
Theorem clean_naver_link_other_hosts (u : urllib) (link category : string) :
  py_in "/blog.naver.com/" link = false -> py_in "/cafe.naver.com/" link = false ->
  clean_naver_link u link category = link.
Proof.
  intros Hb Hc. unfold clean_naver_link. rewrite Hb, Hc. cbn [andb].
  destruct (String.eqb link EmptyString); [reflexivity|].
  destruct (_ && _); reflexivity.
Qed.

Lemma clean_naver_link_other_hosts_witness :
  clean_naver_link sample_urllib "https://m.blog.naver.com/PostView.naver?blogId=a&logNo=1" "blog" =
  "https://m.blog.naver.com/PostView.naver?blogId=a&logNo=1".
Proof. apply clean_naver_link_other_hosts; vm_compute; reflexivity. Defined.

Lemma truthy_some (o : option string) :
  truthy o = true -> exists v, o = Some v /\ v <> EmptyString.
Proof.
  destruct o as [v|]; simpl; [|discriminate]. intro H. exists v. split; [reflexivity|].
  intro E. subst. discriminate.
Qed.

Lemma cafe_rewrite_shape (u : urllib) (link r : string) :
  cafe_rewrite u link = Some r ->
  exists c a, c <> EmptyString /\ a <> EmptyString /\ r = "https://cafe.naver.com/" ++ c ++ "/" ++ a.
Proof.
  unfold cafe_rewrite. cbv zeta.
  match goal with |- context [let (x, y) := ?p in _] => destruct p as [ci ai] end.
  destruct ci as [c|], ai as [a|]; try discriminate.
  destruct (truthy (Some c)) eqn:Ec, (truthy (Some a)) eqn:Ea; simpl; try discriminate.
  intro H. injection H as <-.
  destruct (truthy_some _ Ec) as (c' & Hc & Hc'). injection Hc as <-.
  destruct (truthy_some _ Ea) as (a' & Ha & Ha'). injection Ha as <-.
  exists c, a. auto.
Qed.

(** [clean_naver_link] returns its input, or https://blog.naver.com/ID/NO, or
    https://cafe.naver.com/ID/NO, with non-empty ID and NO. *)
Theorem clean_naver_link_shape (u : urllib) (link category : string) :
  let r := clean_naver_link u link category in
  r = link \/
  (exists b n, b <> EmptyString /\ n <> EmptyString /\ r = "https://blog.naver.com/" ++ b ++ "/" ++ n) \/
  (exists c a, c <> EmptyString /\ a <> EmptyString /\ r = "https://cafe.naver.com/" ++ c ++ "/" ++ a).
Proof.
  cbv zeta. unfold clean_naver_link. cbv zeta.
  destruct (String.eqb link EmptyString); [left; reflexivity|].
  destruct (_ && _ && _); [left; reflexivity|].
  destruct (_ && _); [left; reflexivity|].
  destruct (_ && _ && _); [left; reflexivity|].
  destruct (py_in "/blog.naver.com/" link && _).
  - destruct (String.eqb (parse_qs_first u (urlparse_query u link) "blogId") EmptyString) eqn:Eb,
      (String.eqb (parse_qs_first u (urlparse_query u link) "logNo") EmptyString) eqn:En; simpl.
    4: { right; left. do 2 eexists. split; [|split; [|reflexivity]];
         apply String.eqb_neq; assumption. }
    all: destruct (py_in "/cafe.naver.com/" link); [|left; reflexivity];
         destruct (cafe_rewrite u link) as [r|] eqn:Er; [|left; reflexivity];
         right; right; exact (cafe_rewrite_shape u link r Er).
  - destruct (py_in "/cafe.naver.com/" link); [|left; reflexivity].
    destruct (cafe_rewrite u link) as [r|] eqn:Er; [|left; reflexivity].
    right; right; exact (cafe_rewrite_shape u link r Er).
Qed.

End LinkExtras.

Module SortExtras.
Import NewsAnalyzer Samples.
Local Open Scope list_scope.

Lemma insert_desc_perm (x : article) (ys : list article) : Permutation (insert_desc x ys) (x :: ys).
Proof.
  induction ys as [|y ys IH]; cbn [insert_desc]; [reflexivity|].
  destruct (key_ge (date_key y) (date_key x)); [|reflexivity].
  rewrite IH. apply perm_swap.
Qed.

Lemma sort_fold_perm (xs acc : list article) :
  Permutation (fold_left (fun acc x => insert_desc x acc) xs acc) (xs ++ acc).
Proof.
  revert acc. induction xs as [|x xs IH]; intro acc; cbn [fold_left]; [reflexivity|].
  rewrite IH, insert_desc_perm. symmetry. apply Permutation_middle.
Qed.

Lemma key_ge_total (a b : bool * string) : key_ge a b = false -> key_ge b a = true.
Proof.
  destruct a as [[|] sa], b as [[|] sb]; simpl; try discriminate; try reflexivity;
    destruct (String.leb_total sa sb); congruence.
Qed.

Lemma insert_desc_sorted (x : article) (ys : list article) :
  Sorted date_order ys -> Sorted date_order (insert_desc x ys).
Proof.
  induction ys as [|y ys IH]; intro Hs; cbn [insert_desc]; [repeat constructor|].
  apply Sorted_inv in Hs as [Hs Hh].
  destruct (key_ge (date_key y) (date_key x)) eqn:E.
  - constructor; [exact (IH Hs)|].
    destruct ys as [|z ys]; cbn [insert_desc]; [constructor; exact E|].
    destruct (key_ge (date_key z) (date_key x)); constructor; [apply HdRel_inv in Hh; exact Hh | exact E].
  - constructor; [constructor; [exact Hs | exact Hh]|].
    constructor. apply key_ge_total. exact E.
Qed.

(** [sort_by_date] returns a permutation of its input whose consecutive keys
    are non-increasing. *)
Theorem sort_by_date_sorted (items : list article) :
  Permutation (sort_by_date items) items /\ Sorted date_order (sort_by_date items).
Proof.
  split.
  - unfold sort_by_date. rewrite sort_fold_perm, app_nil_r. reflexivity.
  - unfold sort_by_date. assert (H : Sorted date_order []) by constructor.
    revert H. generalize (@nil article). induction items as [|x xs IH]; intros acc H; cbn [fold_left];
      [exact H | apply IH, insert_desc_sorted, H].
Qed.

Lemma insert_dated (x : article) (U D : list article) :
  undated x = false -> Forall (fun u => undated u = true) U ->
  insert_desc x (U ++ D) = U ++ insert_desc x D.
Proof.
  intros Hx HU. induction HU as [|u U Hu HU IH]; [reflexivity|].
  cbn [app insert_desc].
  assert (Hk : key_ge (date_key u) (date_key x) = true).
  { unfold undated, date_key in *. destruct (published u), (published x); simpl in *; first [reflexivity | congruence]. }
  rewrite Hk, IH. reflexivity.
Qed.

Lemma insert_undated (x : article) (U D : list article) :
  undated x = true -> Forall (fun u => undated u = true) U -> Forall (fun d => undated d = false) D ->
  insert_desc x (U ++ D) = U ++ x :: D.
Proof.
  intros Hx HU HD. induction HU as [|u U Hu HU IH].
  - destruct D as [|d D]; [reflexivity|]. cbn [app insert_desc].
    apply Forall_cons_iff in HD as [Hd _].
    assert (Hk : key_ge (date_key d) (date_key x) = false).
    { unfold undated, date_key in *. destruct (published d), (published x); simpl in *; congruence. }
    rewrite Hk. reflexivity.
  - cbn [app insert_desc].
    assert (Hk : key_ge (date_key u) (date_key x) = true).
    { unfold undated, date_key in *. destruct (published u), (published x); simpl in *; first [reflexivity | congruence]. }
    rewrite Hk, IH. reflexivity.
Qed.

Lemma insert_desc_forall (P : article -> Prop) (x : article) (D : list article) :
  P x -> Forall P D -> Forall P (insert_desc x D).
Proof.
  intros Hx HD. induction HD as [|d D Hd HD IH]; cbn [insert_desc]; [constructor; [exact Hx | constructor]|].
  destruct (key_ge (date_key d) (date_key x)); constructor; auto.
Qed.

Lemma sort_fold_split (xs U D : list article) :
  Forall (fun u => undated u = true) U -> Forall (fun d => undated d = false) D ->
  fold_left (fun acc x => insert_desc x acc) xs (U ++ D) =
  U ++ filter undated xs ++ fold_left (fun acc x => insert_desc x acc) (filter (fun x => negb (undated x)) xs) D.
Proof.
  revert U D. induction xs as [|x xs IH]; intros U D HU HD; [reflexivity|].
  simpl. destruct (undated x) eqn:Ex; simpl.
  - rewrite (insert_undated x U D Ex HU HD).
    replace (U ++ x :: D) with ((U ++ [x]) ++ D) by (rewrite <- app_assoc; reflexivity).
    rewrite IH; [rewrite <- app_assoc; reflexivity | |exact HD].
    apply Forall_app. split; [exact HU | constructor; [exact Ex | constructor]].
  - rewrite (insert_dated x U D Ex HU). apply IH; [exact HU|].
    apply insert_desc_forall; [exact Ex | exact HD].
Qed.

(** [sort_by_date] puts every article without a publication date first, in
    input order, before the dated ones sorted among themselves. *)
Theorem sort_by_date_undated_first (items : list article) :
  sort_by_date items = filter undated items ++ sort_by_date (filter (fun x => negb (undated x)) items).
Proof.
  unfold sort_by_date. apply (sort_fold_split items [] []); constructor.
Qed.

Lemma in_firstn {A : Type} (n : nat) (l : list A) (x : A) : In x (firstn n l) -> In x l.
Proof.
  revert l. induction n as [|n IH]; intros [|y l]; simpl; try tauto.
  intros [<-|H]; [left; reflexivity | right; exact (IH l H)].
Qed.

(** With at least ten undated articles in a category, the ten selected are
    the first ten undated ones: no dated article is selected. *)
Theorem select_latest_prefers_undated (items : list article) :
  (max_per_category <= length (filter undated items))%nat ->
  select_latest items = firstn max_per_category (filter undated items) /\
  Forall (fun x => published x = None) (select_latest items).
Proof.
  intro H. unfold select_latest. rewrite sort_by_date_undated_first, firstn_app.
  replace (max_per_category - length (filter undated items))%nat with 0%nat by lia.
  rewrite app_nil_r. split; [reflexivity|].
  apply Forall_forall. intros x Hx. apply in_firstn, filter_In in Hx. destruct Hx as [_ Hx].
  unfold undated, date_key in Hx. simpl in Hx. destruct (published x); [discriminate | reflexivity].
Qed.

Lemma select_latest_prefers_undated_witness :
  (max_per_category <= length (filter undated (repeat skt_community_article 10 ++ [wednesday_article])))%nat /\
  Forall (fun x => published x = None) (select_latest (repeat skt_community_article 10 ++ [wednesday_article])).
Proof.
  assert (H : (max_per_category <= length (filter undated (repeat skt_community_article 10 ++ [wednesday_article])))%nat)
    by (vm_compute; lia).
  split; [exact H | apply (select_latest_prefers_undated _ H)].
Defined.

(** The publication dates are compared as strings, so an RFC 2822 date of
    Wednesday 7 January is placed before Monday 12 January of the same
    month: "Wed" sorts after "Mon". *)
Theorem sort_by_date_string_order :
  sort_by_date [kt_community_article; wednesday_article] = [wednesday_article; kt_community_article].
Proof. vm_compute. reflexivity. Qed.

End SortExtras.
